(** * The match session of the llm-ddz browser client

    A shallow embedding of [Observer] and [Game] (the client's game scene)
    and of the [Socket] of the local simulation, together with the
    properties of the session that the specification states about them
    and further ones that the code shows.

    Conventions of the embedding.
    - A JavaScript object used as a dictionary is a [gmap], and an object
      held by the observer is the [gmap] of its fields.  That is the
      object as long as its keys name no property that every object
      inherits ([objectPrototype]: for these an object is no plain
      dictionary) and as long as no object is held in two places (an
      assignment to a field shows wherever the object is held).  The
      properties of the observer carry both as hypotheses ([ownKey],
      [Observer.plain], [unaliased]); the scene itself uses the keys
      ['room'], ['ready'], ['rob'], ['baseScore'] and ['room.multiple']
      only and stores an object under ['room'] only.  An array is a
      [list], [push] appends at the end and [pop] takes the last
      element.
    - A method that mutates [this] is a computation in the monad [M]: it
      threads the [World] (the game object, the module-level observer and
      the log of what the scene asked of its surroundings) and either
      returns or throws.  A [TypeError] leaves every mutation made before
      it in place, as in JavaScript, so the world is returned in both cases.
    - Every property access on [undefined] that the source can make on the
      modelled data ([players[-1]], [tablePokerPic[pid]], [syncInfo[k]],
      [state[a][b]]) throws, and so does the body of a subscriber of the
      observer where it reads a field of [undefined] or [null]
      ([subscriberThrows]).  Calls into the rendering engine and into the
      player and rule modules, which are not among the sources, return,
      with the sprite the scene expects where they return one; those that
      touch the modelled data are the fields of [PlayerModule].
    - Wire packets are decoded records: a field has the JavaScript type the
      handler expects, an optional field is an [option]. *)

From Stdlib Require Import ZArith Lia Ascii String.
From stdpp Require Import base option strings list gmap.

Open Scope string_scope.
Open Scope Z_scope.

(** ** JavaScript values held by the observer

    An object is given by its fields: two objects with the same fields
    are the same value, and the identity of an object is not kept (see
    the conventions above and [unaliased]). *)

#[warnings="-register-all"] Inductive Val :=
| VUndefined
| VNull
| VBool (b : bool)
| VNum (n : Z)
| VStr (s : string)
| VObj (props : gmap string Val).

(** The outcome of a call: a normal return or a thrown [TypeError]. *)
Inductive Res (A : Type) :=
| Ok (a : A)
| Throw.
Arguments Ok {A} a.
Arguments Throw {A}.

(** [key.split('.')]: the first segment and the remaining ones.  The
    result of [split] is never empty, so [keys.length === 1] is
    [snd (split_dot key) = []]. *)
Fixpoint split_dot (s : string) : string * list string :=
  match s with
  | EmptyString => ("", [])
  | String c r =>
      let (h, t) := split_dot r in
      if Ascii.eqb c "."%char then ("", h :: t) else (String c h, t)
  end.

(** The names that every object inherits from [Object.prototype].  For
    such a name [o[k]] reads and [o[k] = v] writes something else than a
    field of the dictionary ([__proto__] is the prototype itself, the
    others are its methods, among them the [hasOwnProperty] that
    [Observer] calls). *)
Definition objectPrototype : list string :=
  ["__proto__"; "constructor"; "hasOwnProperty"; "isPrototypeOf";
   "propertyIsEnumerable"; "toLocaleString"; "toString"; "valueOf";
   "__defineGetter__"; "__defineSetter__"; "__lookupGetter__";
   "__lookupSetter__"].

(** A key of the observer none of whose segments is such a name. *)
Definition ownKey (key : string) : Prop :=
  Forall (λ k, k ∉ objectPrototype) ((split_dot key).1 :: (split_dot key).2).

(** [v] occurs in [w]: it is [w], or it occurs in a field of the object
    [w]. *)
Inductive occursIn (v : Val) : Val → Prop :=
| occurs_here : occursIn v v
| occurs_field props k w :
    props !! k = Some w → occursIn v w → occursIn v (VObj props).

(** ** Observer

    [state] and [subscribers] are the two dictionaries of the class.  The
    functions below are the methods on keys that are [ownKey]s, on
    dictionaries that are [plain], and on objects that are held once
    ([unaliased], below): [get] reads a field and not the prototype
    chain, [set] and [subscribe] take [hasOwnProperty] to be the method
    of [Object.prototype], and the assignment of [set] to a field of an
    object is seen under the key of that object only. *)

Module Observer.

(** A subscriber as passed to [subscribe]: a function, identified by a
    number, or a falsy value ([None]), which [set] skips. *)
Definition Callback := option nat.

Record t := mk {
  state : gmap string Val;
  subscribers : gmap string (list Callback)
}.

(** [constructor] *)
Definition new : t := mk ∅ ∅.

(** Both dictionaries are plain: none of the names of [Object.prototype]
    is a key of theirs, so that [subscribers.hasOwnProperty] is the
    inherited method and a key that is not there reads [undefined]. *)
Definition plain (o : t) : Prop :=
  Forall (λ k, state o !! k = None ∧ subscribers o !! k = None) objectPrototype.

(** [get(key)] *)
Definition get (key : string) (o : t) : Val :=
  default VUndefined (state o !! key).

(** The [forEach] of [set]: every truthy callback of [key], in order of
    registration, applied to [newVal]. *)
Definition notify (key : string) (o : t) : list (nat * Val) :=
  match subscribers o !! key with
  | Some cbs => omap (λ cb : Callback, (λ f, (f, get key o)) <$> cb) cbs
  | None => []
  end.

(** [set(key, val)]: the calls made to subscribers and the observer
    afterwards. *)
Definition set (key : string) (val : Val) (o : t) : Res (list (nat * Val)) * t :=
  if decide (key = "countdown") then (Ok [], o)
  else
    match split_dot key with
    | (_, []) =>
        let o' := mk (<[key := val]> (state o)) (subscribers o) in
        (Ok (notify key o'), o')
    | (k0, k1 :: _) =>
        match state o !! k0 with
        | Some (VObj props) =>
            let o' := mk (<[k0 := VObj (<[k1 := val]> props)]> (state o))
                         (subscribers o) in
            (Ok (notify k0 o'), o')
        | _ => (Throw, o)
        end
    end.

(** [subscribe(key, cb)] *)
Definition subscribe (key : string) (cb : Callback) (o : t) : t :=
  if decide (key = "countdown") then o
  else
    match subscribers o !! key with
    | Some cbs => mk (state o) (<[key := (cbs ++ [cb])%list]> (subscribers o))
    | None => mk (state o) (<[key := [cb]]> (subscribers o))
    end.


End Observer.

(** ** Players

    [player.mjs] is not part of the sources at hand.  A [Player] keeps
    what the game scene reads and writes of it: the identity, the hand
    ([pokerInHand], where [None] is a slot holding [undefined]) and the
    landlord flag. *)

Record Player := mkPlayer {
  uid : Z;
  name : string;
  pokerInHand : list (option Z);
  isLandlord : bool
}.

(** Modelled from the spec: [Player.updateInfo(uid, name)] is missing;
    a Player is "{id (opaque identity), displayName, seat, isLandlord}"
    and the join response populates the identity of a seat. *)
Definition updateInfo (u : Z) (n : string) (p : Player) : Player :=
  mkPlayer u n (pokerInHand p) (isLandlord p).

(** Modelled from the spec: [Player.setLandlord()] is missing;
    "isLandlord set exactly once per match". *)
Definition setLandlord (p : Player) : Player :=
  mkPlayer (uid p) (name p) (pokerInHand p) true.

Definition with_hand (h : list (option Z)) (p : Player) : Player :=
  mkPlayer (uid p) (name p) h (isLandlord p).

(** What the scene needs of the missing player and rule modules: how a
    player is created, and what the methods that work on a hand do to it.
    The two sorts ([Player.sortPoker] and [Array.sort] by
    [Poker.comparePoker]) reorder and nothing else. *)
Class PlayerModule := {
  createPlay : Z → Player;
  removeAPoker : Z → list (option Z) → list (option Z);
  replacePoker : list Z → list (option Z) → list (option Z);
  cleanPokers : list (option Z) → list (option Z);
  sortPoker : list (option Z) → list (option Z);
  sortPoker_perm : ∀ h, sortPoker h ≡ₚ h;
  sortByComparePoker : list Z → list Z;
  sortByComparePoker_perm : ∀ l, sortByComparePoker l ≡ₚ l
}.

(** ** The game scene *)

(** [lastShotPlayer] is a reference to one of the objects in [players]
    (or [null]); it is kept as the index of that object.  [restart], the
    only place that replaces the objects, resets it to [null].
    [tablePokerPic] maps card ids to sprites; its keys are kept. *)
Record Game := mkGame {
  players : list Player;
  tablePoker : list Z;
  tablePokerPic : gset Z;
  lastShotPlayer : option nat;
  whoseTurn : Z
}.

(** Callbacks handed to the timer of the engine. *)
Inductive Scheduled := CbDealLastThreePoker | CbStartPlay | CbGameOver.

(** Requests of the client. *)
Inductive Request :=
| REQ_ROOM_LIST
| REQ_JOIN_ROOM (room : Z) (level : Val)
| REQ_READY (ready : Z)
| REQ_CALL_SCORE (rob : Z)
| REQ_SHOT_POKER (pokers : list Z).

(** What the scene asks of its surroundings. *)
Inductive Effect :=
| Notify (cb : nat) (v : Val)          (* a subscriber of the observer is called *)
| Timer (delay : Z) (cb : Scheduled)   (* game.time.events.add(delay, cb, this) *)
| PlayPoker (lastTurn : list Z)        (* players[0].playPoker(lastTurn) *)
| Alert (landlordWins : bool)          (* alert(...) of gameOver *)
| Send (r : Request).                  (* socket.send *)

Record World := mkWorld {
  game : Game;
  observer : Observer.t;
  log : list Effect
}.

(** Computations over the world that return or throw. *)
Definition M (A : Type) : Type := World → Res A * World.

Definition run {A} (m : M A) (w : World) : Res A * World := m w.

#[global] Instance M_ret : MRet M := λ A a w, (Ok a, w).
#[global] Instance M_bind : MBind M := λ A B k m w,
  match m w with
  | (Ok a, w') => k a w'
  | (Throw, w') => (Throw, w')
  end.

Definition throw {A} : M A := λ w, (Throw, w).
Definition getGame : M Game := λ w, (Ok (game w), w).
Definition putGame (g : Game) : M unit := λ w, (Ok (), mkWorld g (observer w) (log w)).
Definition emit (e : Effect) : M unit :=
  λ w, (Ok (), mkWorld (game w) (observer w) (log w ++ [e])%list).

Definition setPlayers (ps : list Player) : M unit :=
  g ← getGame; putGame (mkGame ps (tablePoker g) (tablePokerPic g) (lastShotPlayer g) (whoseTurn g)).
Definition setTablePoker (t : list Z) : M unit :=
  g ← getGame; putGame (mkGame (players g) t (tablePokerPic g) (lastShotPlayer g) (whoseTurn g)).
Definition setTablePokerPic (t : gset Z) : M unit :=
  g ← getGame; putGame (mkGame (players g) (tablePoker g) t (lastShotPlayer g) (whoseTurn g)).
Definition setLastShotPlayer (l : option nat) : M unit :=
  g ← getGame; putGame (mkGame (players g) (tablePoker g) (tablePokerPic g) l (whoseTurn g)).
Definition setWhoseTurn (t : Z) : M unit :=
  g ← getGame; putGame (mkGame (players g) (tablePoker g) (tablePokerPic g) (lastShotPlayer g) t).

(** [a[i]] for a number [i]: [undefined] outside the array. *)
Definition js_index {A} (l : list A) (i : Z) : option A :=
  if decide (i < 0) then None else l !! Z.to_nat i.

(** [a[i] = x] for [i] at most [a.length]: the slot is overwritten, or
    the array grows by one. *)
Definition js_assign {A} (i : nat) (x : A) (l : list A) : list A :=
  if decide (i < length l)%nat then <[i := x]> l else (l ++ [x])%list.

(** [this.players[seat]] followed by a property access. *)
Definition getPlayer (seat : Z) : M Player :=
  g ← getGame;
  match js_index (players g) seat with
  | Some p => mret p
  | None => throw
  end.

(** A method of [this.players[seat]] that changes the player. *)
Definition updPlayer (seat : Z) (f : Player → Player) : M unit :=
  p ← getPlayer seat;
  g ← getGame;
  setPlayers (<[Z.to_nat seat := f p]> (players g)).

(** [this.players[seat].pokerInHand.push(v)] *)
Definition pushPoker (seat : Z) (v : option Z) : M unit :=
  updPlayer seat (λ p, with_hand (pokerInHand p ++ [v])%list p).

(** The subscribers that [create] registers, by number. *)
Definition titleBar : nat := 0.
Definition readyButton : nat := 1.
Definition bidButtons : nat := 2.

(** What a subscriber does with the value it is called with.  The title
    bar formats [room.id], [room.origin] and [room.multiple]: a
    [TypeError] when the value is [undefined] or [null].  The ready
    button and the bid buttons store the value or its negation in
    [visible] and return; any other number stands for a function that
    returns. *)
Definition subscriberThrows (cb : nat) (v : Val) : bool :=
  if decide (cb = titleBar) then
    match v with
    | VUndefined | VNull => true
    | _ => false
    end
  else false.

(** The calls of the [forEach] of [set] that are made, up to the first
    that throws, and whether one threw. *)
Fixpoint callsMade (calls : list (nat * Val)) : list (nat * Val) * bool :=
  match calls with
  | [] => ([], false)
  | c :: rest =>
      if subscriberThrows c.1 c.2 then ([c], true)
      else let (made, thrown) := callsMade rest in (c :: made, thrown)
  end.

(** [observer.set(key, val)] on the observer of the module: the value
    is stored, then the subscribers are called until one throws. *)
Definition observerSet (key : string) (val : Val) : M unit := λ w,
  match Observer.set key val (observer w) with
  | (Ok calls, o) =>
      let (made, thrown) := callsMade calls in
      (if thrown : bool then Throw else Ok (),
       mkWorld (game w) o (log w ++ ((λ c, Notify c.1 c.2) <$> made))%list)
  | (Throw, o) => (Throw, mkWorld (game w) o (log w))
  end.

(** ** Packets of the server, decoded *)

Record PlayerInfo := mkInfo { info_uid : Z; info_name : string }.

(** [packet['room']]: the properties shown by the title bar and kept by
    the observer, and the three fields the join handler reads.  The array
    [bottom_cards] becomes [tablePoker] itself and is kept only there. *)
Record Room := mkRoom {
  room_props : gmap string Val;
  bottom_cards : option (list Z);
  landlord_uid : Z;
  room_state : Z
}.

Record CallScorePacket := mkCallScore {
  call_uid : Z;
  call_rob : Z;
  call_landlord : Z;
  call_pokers : option (list Z);
  call_multiple : Val
}.

Record ShotPacket := mkShot {
  shot_uid : Z;
  shot_pokers : list Z;
  shot_multiple : Val
}.

Inductive Message :=
| RSP_ROOM_LIST
| RSP_JOIN_ROOM (room : option Room) (syncInfo : list PlayerInfo)
| RSP_READY (playerId : Z)
| RSP_DEAL_POKER (playerId : Z) (pokers : list Z)
| RSP_CALL_SCORE (packet : CallScorePacket)
| RSP_SHOT_POKER (packet : ShotPacket)
| RSP_TURN_PLAYER (playerId : Z) (pokers : option (list Z))
| RSP_GAME_OVER (winner : Z) (hands : list (Z * list Z))
| UNKNOWN_PACKET.

(** The identity supplied by the login ([window.playerInfo]). *)
Record LocalInfo := mkLocal { local_uid : Z; local_name : string }.

Section Game.

Context `{PM : PlayerModule}.

(** [constructor] *)
Definition newGame : Game := mkGame [] [] ∅ None 0.

(** [init(baseScore)] *)
Definition init (baseScore : Val) : M unit := observerSet "baseScore" baseScore.

(** [uidToSeat(uid)]: the loop from seat [i] on, over [n] seats. *)
Fixpoint uidToSeat_from (n i : nat) (u : Z) (ps : list Player) : Res Z :=
  match n with
  | O => Ok (-1)
  | S n' =>
      match ps !! i with
      | None => Throw
      | Some p =>
          if decide (u = uid p) then Ok (Z.of_nat i)
          else uidToSeat_from n' (S i) u ps
      end
  end.

Definition uidToSeat (u : Z) : M Z := λ w,
  (uidToSeat_from 3 0 u (players (game w)), w).

(** [startCallScore()] *)
Definition startCallScore : M unit :=
  g ← getGame;
  if decide (whoseTurn g = 0) then observerSet "rob" (VBool true) else mret ().

(** [isLastShotPlayer()]: identity of the two player objects. *)
Definition isLastShotPlayer : M bool :=
  g ← getGame;
  _ ← getPlayer (whoseTurn g);
  mret (bool_decide (lastShotPlayer g = Some (Z.to_nat (whoseTurn g)))).

(** [startPlay()] *)
Definition startPlay : M unit :=
  g ← getGame;
  if decide (whoseTurn g < 0 ∨ whoseTurn g >= Z.of_nat (length (players g)))
  then mret ()
  else
    b ← isLastShotPlayer;
    if b : bool then emit (PlayPoker []) else emit (PlayPoker (tablePoker g)).

(** [finishPlay(pokers)] *)
Definition finishPlay (pokers : list Z) : M unit :=
  emit (Send (REQ_SHOT_POKER pokers)).

(** [onopen()] *)
Definition onopen : M unit := λ w,
  (emit (Send REQ_ROOM_LIST);;
   emit (Send (REQ_JOIN_ROOM (-1) (Observer.get "baseScore" (observer w))))) w.

(** The loop of [dealPoker]: [n] rounds left, [pokers] not yet popped. *)
Fixpoint dealLoop (n : nat) (pokers : list Z) : M unit :=
  match n with
  | O => mret ()
  | S n' =>
      pushPoker 2 (Some 55);;
      pushPoker 1 (Some 55);;
      pushPoker 0 (last pokers);;
      dealLoop n' (removelast pokers)
  end.

(** [dealPoker(pokers)] *)
Definition dealPoker (pokers : list Z) : M unit :=
  g ← getGame;
  setTablePokerPic ({[55]} ∪ tablePokerPic g);;
  dealLoop 17 pokers.

(** [showLastThreePoker()] *)
Definition showLastThreePoker : M unit :=
  g ← getGame;
  if decide (length (tablePoker g) ≠ 3%nat) then mret ()
  else
    setTablePokerPic ((tablePokerPic g ∖ {[55]}) ∪ list_to_set (tablePoker g));;
    emit (Timer 1500 CbDealLastThreePoker).

(** The sprites of the cards on the table are used: a card on the table
    without a sprite in [tablePokerPic] throws. *)
Definition tableSprites : M unit :=
  g ← getGame;
  if decide (Forall (λ pid, pid ∈ tablePokerPic g) (tablePoker g))
  then mret () else throw.

(** [dealLastThreePoker()] *)
Definition dealLastThreePoker : M unit :=
  g ← getGame;
  if decide (whoseTurn g < 0 ∨ whoseTurn g >= Z.of_nat (length (players g)))
  then mret ()
  else if decide (length (tablePoker g) ≠ 3%nat) then mret ()
  else
    let seat := whoseTurn g in
    mapM (λ pid, pushPoker seat (Some pid)) (tablePoker g);;
    updPlayer seat (λ p, with_hand (sortPoker (pokerInHand p)) p);;
    (if decide (seat = 0) then mret () else tableSprites);;
    setTablePoker [];;
    setLastShotPlayer (Some (Z.to_nat seat));;
    if decide (seat = 0) then startPlay else mret ().

(** [handleShotPoker(packet)] *)
Definition handleShotPoker (packet : ShotPacket) : M unit :=
  seat ← uidToSeat (shot_uid packet);
  setWhoseTurn seat;;
  (if decide (shot_pokers packet = []) then
     _ ← getPlayer seat; mret ()
   else
     let pokers := sortByComparePoker (shot_pokers packet) in
     mapM (λ pid,
       updPlayer seat (λ p, with_hand (removeAPoker pid (pokerInHand p)) p))
       pokers;;
     tableSprites;;
     setTablePoker pokers;;
     setTablePokerPic (list_to_set pokers);;
     setLastShotPlayer (Some (Z.to_nat seat)));;
  turnPlayer ← getPlayer seat;
  if decide (0 < length (pokerInHand turnPlayer))%nat then
    setWhoseTurn (Z.rem (seat + 1) 3);;
    if decide (Z.rem (seat + 1) 3 = 0) then emit (Timer 1000 CbStartPlay)
    else mret ()
  else mret ().

(** The loop of the join response over [syncInfo]: [rest] is what is
    left of it from index [i] on. *)
Fixpoint joinLoop (syncInfo : list PlayerInfo) (i : nat)
    (rest : list PlayerInfo) : M unit :=
  match rest with
  | [] => mret ()
  | info :: rest' =>
      p0 ← getPlayer 0;
      if decide (info_uid info = uid p0) then
        let info_1 := syncInfo !! ((i + 1) mod 3)%nat in
        let info_2 := syncInfo !! ((i + 2) mod 3)%nat in
        _ ← getPlayer 1;
        match info_1 with
        | None => throw
        | Some i1 =>
            updPlayer 1 (updateInfo (info_uid i1) (info_name i1));;
            _ ← getPlayer 2;
            match info_2 with
            | None => throw
            | Some i2 => updPlayer 2 (updateInfo (info_uid i2) (info_name i2))
            end
        end
      else joinLoop syncInfo (S i) rest'
  end.

(** The [forEach] of the game-over response. *)
Fixpoint revealHands (hands : list (Z * list Z)) : M unit :=
  match hands with
  | [] => mret ()
  | (u, pokers) :: rest =>
      seat ← uidToSeat u;
      (if decide (seat > 0) then
         updPlayer seat (λ p, with_hand (replacePoker pokers (pokerInHand p)) p)
       else mret ());;
      revealHands rest
  end.

(** [cleanWorld()] *)
Definition cleanWorld : M unit :=
  g ← getGame;
  setPlayers ((λ p, with_hand (cleanPokers (pokerInHand p)) p) <$> players g);;
  tableSprites.

(** The function [gameOver] of the game-over response. *)
Definition gameOver : M unit :=
  g ← getGame;
  p ← getPlayer (whoseTurn g);
  emit (Alert (isLandlord p));;
  observerSet "ready" (VBool false);;
  cleanWorld.

(** [onmessage(message)] *)
Definition onmessage (message : Message) : M unit :=
  match message with
  | RSP_ROOM_LIST => mret ()
  | RSP_JOIN_ROOM room syncInfo =>
      observerSet "room" (from_option (λ r, VObj (room_props r)) VUndefined room);;
      joinLoop syncInfo 0 syncInfo;;
      match room with
      | Some r =>
          match bottom_cards r with
          | Some cards =>
              if decide (length cards = 3%nat) then
                setTablePoker cards;;
                if decide (landlord_uid r ≠ -1 ∧ room_state r >= 3)
                then showLastThreePoker else mret ()
              else mret ()
          | None => mret ()
          end
      | None => mret ()
      end
  | RSP_READY playerId =>
      p0 ← getPlayer 0;
      if decide (playerId = uid p0) then observerSet "ready" (VBool true)
      else mret ()
  | RSP_DEAL_POKER playerId pokers =>
      p0 ← getPlayer 0;
      if decide (playerId = uid p0) then
        dealPoker pokers;;
        seat ← uidToSeat playerId;
        setWhoseTurn seat;;
        startCallScore
      else mret ()
  | RSP_CALL_SCORE packet =>
      seat ← uidToSeat (call_uid packet);
      setWhoseTurn seat;;
      _ ← getPlayer seat;
      observerSet "rob" (VBool false);;
      (if decide (call_landlord packet = -1) then
         setWhoseTurn (Z.rem (seat + 1) 3);;
         startCallScore
       else
         landlord ← uidToSeat (call_landlord packet);
         setWhoseTurn landlord;;
         match call_pokers packet with
         | Some [c0; c1; c2] =>
             g ← getGame;
             setTablePoker
               (js_assign 2 c2 (js_assign 1 c1 (js_assign 0 c0 (tablePoker g))));;
             updPlayer landlord setLandlord;;
             showLastThreePoker
         | _ => mret ()
         end);;
      observerSet "room.multiple" (call_multiple packet)
  | RSP_SHOT_POKER packet =>
      handleShotPoker packet;;
      observerSet "room.multiple" (shot_multiple packet)
  | RSP_TURN_PLAYER playerId pokers =>
      seat ← uidToSeat playerId;
      setWhoseTurn seat;;
      setTablePoker (default [] pokers);;
      if decide (seat = 0) then startPlay else mret ()
  | RSP_GAME_OVER winner hands =>
      revealHands hands;;
      seat ← uidToSeat winner;
      setWhoseTurn seat;;
      emit (Timer 2000 CbGameOver)
  | UNKNOWN_PACKET => mret ()
  end.

(** [restart()] *)
Definition restart : M unit :=
  putGame (mkGame [createPlay 0; createPlay 1; createPlay 2] [] ∅ None 0).

(** [create()]: the three players, the identity of the local one, and
    the subscribers of the title bar (0), of the ready button (1) and of
    the bid buttons (2); [subscriberThrows] is what their bodies do. *)
Definition create (playerInfo : LocalInfo) : M unit := λ w,
  let ps := (players (game w) ++ [createPlay 0; createPlay 1; createPlay 2])%list in
  (setPlayers ps;;
   updPlayer 0 (updateInfo (local_uid playerInfo) (local_name playerInfo)))
    (mkWorld (game w)
       (Observer.subscribe "rob" (Some bidButtons)
          (Observer.subscribe "ready" (Some readyButton)
             (Observer.subscribe "room" (Some titleBar) (observer w))))
       (log w)).

(** A callback of the timer runs. *)
Definition fire (cb : Scheduled) : M unit :=
  match cb with
  | CbDealLastThreePoker => dealLastThreePoker
  | CbStartPlay => startPlay
  | CbGameOver => gameOver
  end.

(** The world after a computation, whether it returned or threw. *)
Definition exec {A} (m : M A) (w : World) : World := (run m w).2.

(** The world after a sequence of messages: each is handled in its
    turn; a handler that throws ends alone. *)
Definition onmessages (ms : list Message) (w : World) : World :=
  foldl (λ w m, exec (onmessage m) w) w ms.

End Game.

(** ** The socket of the local simulation

    [net.mjs] as it runs: [USE_LOCAL_SIMULATION] is the constant [true],
    so [connect] and [send] take their first branch and no web socket is
    opened. *)

Module Protocol.

Definition CLI_CHEAT : Z := 1.
Definition SER_CHEAT : Z := 2.
Definition CLI_LOGIN : Z := 11.
Definition SER_LOGIN : Z := 12.
Definition CLI_LIST_TABLE : Z := 15.
Definition SER_LIST_TABLE : Z := 16.
Definition CLI_CREATE_TABLE : Z := 17.
Definition SER_CREATE_TABLE : Z := 18.
Definition CLI_JOIN_TABLE : Z := 19.
Definition SER_JOIN_TABLE : Z := 20.
Definition CLI_DEAL_POKER : Z := 31.
Definition SER_DEAL_POKER : Z := 32.
Definition CLI_CALL_SCORE : Z := 33.
Definition SER_CALL_SCORE : Z := 34.
Definition CLI_HOLE_POKER : Z := 35.
Definition SER_HOLE_POKER : Z := 36.
Definition CLI_SHOT_POKER : Z := 37.
Definition SER_SHOT_POKER : Z := 38.
Definition CLI_GAME_OVER : Z := 41.
Definition SER_GAME_OVER : Z := 42.
Definition CLI_CHAT : Z := 43.
Definition SER_CHAT : Z := 44.
Definition CLI_RESTART : Z := 45.
Definition SER_RESTART : Z := 46.

End Protocol.

(** [v] in a condition or on the left of [||]. *)
Definition truthy (v : Val) : bool :=
  match v with
  | VUndefined | VNull => false
  | VBool b => b
  | VNum n => negb (n =? 0)
  | VStr s => negb (String.eqb s "")
  | VObj _ => true
  end.

(** [v.k]: a [TypeError] on [undefined] and [null], [undefined] for a
    property that is not there. *)
Definition field (k : string) (v : Val) : Res Val :=
  match v with
  | VUndefined | VNull => Throw
  | VObj props => Ok (default VUndefined (props !! k))
  | _ => Ok VUndefined
  end.

Module Socket.

(** A handler passed to [connect]: a function, identified by a number,
    or a falsy value. *)
Definition Handler := option nat.

Record t := mk {
  connected : bool;
  messageHandler : Handler;
  openHandler : Handler;
  errorHandler : Handler
}.

(** [constructor] *)
Definition new : t := mk false None None None.

(** The arrow functions handed to [setTimeout]: they read [this] and
    the [data] of the request when they run. *)
Inductive Closure :=
| OpenCb
| LoginCb (data : Val)
| ListTableCb
| JoinTableCb (data : Val)
| DealPokerCb
| CallScoreCb (data : Val).

(** The object of a simulated response. *)
Inductive Payload :=
| Login (uid : Z) (name : Val) (point : Z)
| Tables (tables : list (Z * string * Z * Z))
| Joined (table_id : Val) (seat : Z) (players : list (Z * Val * Z))
| Dealt (pokers : list Z)
| Called (uid : Z) (score : Val) (turn : Z).

(** A call of a handler: [openHandler()] or
    [messageHandler([code, payload])]. *)
Inductive Call :=
| Open (h : nat)
| Message (h : nat) (code : Z) (payload : Payload).

(** [connect(onopen, onmessage, onerror)]: the socket afterwards and
    the timeouts set, with their delays. *)
Definition connect (onopen onmessage onerror : Handler) (s : t) : t * list (Z * Closure) :=
  let s' := mk true onmessage onopen onerror in
  (s', match openHandler s' with Some _ => [(100, OpenCb)] | None => [] end).

(** [simulateResponse(msg)] for [msg = [type, data]]: the timeouts set. *)
Definition simulateResponse (type data : Val) (s : t) : list (Z * Closure) :=
  match messageHandler s with
  | None => []
  | Some _ =>
      match type with
      | VNum n =>
          if decide (n = Protocol.CLI_LOGIN) then [(200, LoginCb data)]
          else if decide (n = Protocol.CLI_LIST_TABLE) then [(200, ListTableCb)]
          else if decide (n = Protocol.CLI_JOIN_TABLE) then [(200, JoinTableCb data)]
          else if decide (n = Protocol.CLI_DEAL_POKER) then [(200, DealPokerCb)]
          else if decide (n = Protocol.CLI_CALL_SCORE) then [(200, CallScoreCb data)]
          else []
      | _ => []
      end
  end.

(** [send(msg)] *)
Definition send (type data : Val) (s : t) : list (Z * Closure) :=
  simulateResponse type data s.

(** [this.messageHandler(message)] when a timeout runs. *)
Definition deliver (code : Z) (payload : Payload) (s : t) : Res Call :=
  match messageHandler s with
  | Some h => Ok (Message h code payload)
  | None => Throw
  end.

(** A timeout runs, [window.playerInfo] being [playerInfo]. *)
Definition fire (playerInfo : Val) (c : Closure) (s : t) : Res Call :=
  match c with
  | OpenCb =>
      match openHandler s with
      | Some h => Ok (Open h)
      | None => Throw
      end
  | LoginCb data =>
      match field "name" data with
      | Ok n =>
          deliver Protocol.SER_LOGIN
            (Login 1 (if truthy n then n else VStr "本地玩家") 1000) s
      | Throw => Throw
      end
  | ListTableCb =>
      deliver Protocol.SER_LIST_TABLE (Tables [(1, "人机对战", 1, 3)]) s
  | JoinTableCb data =>
      match field "table_id" data with
      | Ok id =>
          match field "name" playerInfo with
          | Ok n =>
              deliver Protocol.SER_JOIN_TABLE
                (Joined id 0
                   [(1, n, 0); (2, VStr "电脑玩家1", 1); (3, VStr "电脑玩家2", 2)]) s
          | Throw => Throw
          end
      | Throw => Throw
      end
  | DealPokerCb =>
      deliver Protocol.SER_DEAL_POKER
        (Dealt [1; 2; 3; 4; 5; 6; 7; 8; 9; 10; 11; 12; 13; 14; 15; 16; 17]) s
  | CallScoreCb data =>
      match field "score" data with
      | Ok sc => deliver Protocol.SER_CALL_SCORE (Called 1 sc 2) s
      | Throw => Throw
      end
  end.

End Socket.

(** ** An instance of the player module, to run the scene *)

(** Modelled from the spec: [Player.removeAPoker(pid)] is missing; a
    played card leaves the hand ("remove cards from Hand[seat]"), here
    its first occurrence. *)
Fixpoint removeFirst (pid : Z) (h : list (option Z)) : list (option Z) :=
  match h with
  | [] => []
  | c :: h' => if decide (c = Some pid) then h' else c :: removeFirst pid h'
  end.

(** Modelled from the spec: [createPlay] and the methods of [Player] and
    [Poker] are missing.  A new player holds no card and is no landlord
    ("empty hands", "isLandlord ... cleared on restart") and has the seat
    for identity until [updateInfo] gives it one; the hands revealed at
    the end of a round replace the hand.  The order of
    [Poker.comparePoker] is unknown: the two sorts keep the order they
    find. *)
#[global, refine] Instance SpecPlayers : PlayerModule := {|
  createPlay seat := mkPlayer seat "" [] false;
  removeAPoker := removeFirst;
  replacePoker pokers _ := Some <$> pokers;
  cleanPokers _ := [];
  sortPoker h := h;
  sortByComparePoker l := l
|}.
Proof. all: reflexivity. Defined.

(** ** A run of the scene on a table of three *)

(** The scene is created for the local player of uid 1 and joined by the
    players 2 and 3, the players of the simulated join response of
    [Socket]; the room is an example with the properties that the title
    bar shows. *)
Definition world0 : World := mkWorld newGame Observer.new [].

Definition simulatedPlayers : list PlayerInfo :=
  [mkInfo 1 "local"; mkInfo 2 "cpu1"; mkInfo 3 "cpu2"].

Definition simulatedRoom : Room :=
  mkRoom {["id" := VNum 1; "origin" := VNum 1; "multiple" := VNum 1]} None (-1) 0.

Definition joined : World :=
  onmessages [RSP_JOIN_ROOM (Some simulatedRoom) simulatedPlayers]
    (exec (create (mkLocal 1 "local")) world0).

(** The deal of the simulated server: the cards 1 to 17. *)
Definition dealt : World :=
  onmessages [RSP_DEAL_POKER 1 (seqZ 1 17)] joined.

(** Scenario A of the specification: the local player bids, the first
    peer does not, the second peer bids and is named landlord with the
    bottom cards 52, 53 and 54. *)
Definition bidden : World :=
  onmessages
    [RSP_CALL_SCORE (mkCallScore 1 1 (-1) None (VNum 1));
     RSP_CALL_SCORE (mkCallScore 2 0 (-1) None (VNum 1));
     RSP_CALL_SCORE (mkCallScore 3 1 3 (Some [52; 53; 54]) (VNum 2))]
    dealt.

(** The timer has handed the bottom cards to the landlord. *)
Definition playing : World := exec (fire CbDealLastThreePoker) bidden.

(** The landlord has led the pair 53, 52: it is the turn of seat 0. *)
Definition led : World :=
  onmessages [RSP_SHOT_POKER (mkShot 3 [53; 52] (VNum 2))] playing.

(** The local player has passed and the first peer has answered with
    30, 31: the trick is owned by seat 1 and it is the turn of seat 2. *)
Definition answered : World :=
  onmessages
    [RSP_SHOT_POKER (mkShot 1 [] (VNum 2));
     RSP_SHOT_POKER (mkShot 2 [30; 31] (VNum 2))]
    led.

(** Another bidding: the local player is named landlord and has been
    handed the bottom cards 52, 53 and 54. *)
Definition localLead : World :=
  exec (fire CbDealLastThreePoker)
    (onmessages [RSP_CALL_SCORE (mkCallScore 1 1 1 (Some [52; 53; 54]) (VNum 2))] dealt).

(** The end of a round and the start of the next one.  The landlord
    plays the straight 3 to 7 and the server ends the round; the
    game-over callback runs; the local player is ready and is dealt the
    cards 1 to 17 again.  Nothing on the way empties the table. *)
Definition lastPlay : World :=
  onmessages [RSP_SHOT_POKER (mkShot 3 [3; 4; 5; 6; 7] (VNum 2))] playing.

Definition roundOver : World :=
  onmessages [RSP_GAME_OVER 3 []] lastPlay.

Definition cleaned : World := exec (fire CbGameOver) roundOver.

Definition staleTable : World :=
  onmessages [RSP_READY 1; RSP_DEAL_POKER 1 (seqZ 1 17)] cleaned.

(** An observer with the room of that table, the title bar subscribed to
    [room] and a subscriber 7 to the key [room.multiple]. *)
Definition titled : Observer.t :=
  Observer.subscribe "room.multiple" (Some 7%nat)
    (Observer.subscribe "room" (Some 0%nat)
       (Observer.set "room" (VObj (room_props simulatedRoom)) Observer.new).2).

(** ** Notions used by the properties *)

(** The 54 cards of the deck. *)
Definition deck : list Z := seqZ 1 54.

(** The hand of a seat ([[]] for a seat without player). *)
Definition hand (seat : nat) (g : Game) : list (option Z) :=
  from_option pokerInHand [] (players g !! seat).

(** How often a card occurs in the three hands, among the bottom cards
    and cards on the table ([tablePoker] holds both in turn) and among
    the cards [played] before. *)
Definition occurrences (c : Z) (g : Game) (played : list Z) : nat :=
  length (filter (λ x, x = Some c)
    (hand 0 g ++ hand 1 g ++ hand 2 g ++ (Some <$> tablePoker g) ++ (Some <$> played))%list).

(** What [n] calls of [pop] return, from a list [pokers]: its elements
    from the last one backwards, then [undefined]. *)
Definition popped (n : nat) (pokers : list Z) : list (option Z) :=
  take n ((Some <$> reverse pokers) ++ replicate n None)%list.

(** The multiplier shown by the title bar: [room.multiple] of the
    observer. *)
Definition multiplier (w : World) : Val :=
  match Observer.get "room" (observer w) with
  | VObj props => default VUndefined (props !! "multiple")
  | _ => VUndefined
  end.

(** The observers that the calls of [subscribe] and [set] can produce. *)
Inductive reachable : Observer.t → Prop :=
| reachable_new : reachable Observer.new
| reachable_subscribe o key cb :
    reachable o → reachable (Observer.subscribe key cb o)
| reachable_set o key val :
    reachable o → reachable (Observer.set key val o).2.

(** The same, by calls whose keys are all [ownKey]s. *)
Inductive reachableOwn : Observer.t → Prop :=
| reachableOwn_new : reachableOwn Observer.new
| reachableOwn_subscribe o key cb :
    ownKey key → reachableOwn o → reachableOwn (Observer.subscribe key cb o)
| reachableOwn_set o key val :
    ownKey key → reachableOwn o → reachableOwn (Observer.set key val o).2.

(** The object [props] held under the key [a] is held nowhere else: it
    occurs neither in the value [val] that is about to be stored in it
    nor in the value of another key.  (Two objects with the same fields
    are not told apart here, so this asks more than the code needs.) *)
Definition unaliased (a : string) (props : gmap string Val) (val : Val)
    (o : Observer.t) : Prop :=
  ¬ occursIn (VObj props) val ∧
  ∀ k v, k ≠ a → Observer.state o !! k = Some v → ¬ occursIn (VObj props) v.

(** The calls of [set] for a list of subscribers [cbs] and a value. *)
Definition callsOf (cbs : list Observer.Callback) (v : Val) : list (nat * Val) :=
  omap (λ cb : Observer.Callback, (λ f, (f, v)) <$> cb) cbs.

(** The entries of the log that are calls of subscribers. *)
Definition isNotify (e : Effect) : Prop :=
  match e with
  | Notify _ _ => True
  | _ => False
  end.

(** The callbacks handed to the timer so far, with their delays. *)
Definition scheduled (w : World) : list (Z * Scheduled) :=
  omap (λ e, match e with Timer d cb => Some (d, cb) | _ => None end) (log w).

(** Updates of the world. *)
Definition withGame (g : Game) (w : World) : World :=
  mkWorld g (observer w) (log w).
Definition withPlayers (ps : list Player) (w : World) : World :=
  withGame (mkGame ps (tablePoker (game w)) (tablePokerPic (game w))
              (lastShotPlayer (game w)) (whoseTurn (game w))) w.
Definition withWhoseTurn (t : Z) (w : World) : World :=
  withGame (mkGame (players (game w)) (tablePoker (game w)) (tablePokerPic (game w))
              (lastShotPlayer (game w)) t) w.

(** The world after seat [s], left with the hand [h], has played or
    passed: the turn goes to the next seat, and the local player is
    prompted a second later, unless the hand is empty. *)
Definition passTurn (s : Z) (h : list (option Z)) (w : World) : World :=
  if decide (0 < length h)%nat then
    mkWorld
      (mkGame (players (game w)) (tablePoker (game w)) (tablePokerPic (game w))
         (lastShotPlayer (game w)) (Z.rem (s + 1) 3))
      (observer w)
      (if decide (Z.rem (s + 1) 3 = 0) then (log w ++ [Timer 1000 CbStartPlay])%list
       else log w)
  else w.

(** The identity of a player: its [uid], [name] and landlord flag,
    whatever it holds. *)
Definition identity (p : Player) : Z * string * bool :=
  (uid p, name p, isLandlord p).

(** The requests that the simulation answers. *)
Definition answered_types : list Z :=
  [Protocol.CLI_LOGIN; Protocol.CLI_LIST_TABLE; Protocol.CLI_JOIN_TABLE;
   Protocol.CLI_DEAL_POKER; Protocol.CLI_CALL_SCORE].

(** Closed facts about the run are settled by evaluation. *)
Ltac evaluate := vm_compute; reflexivity.

(** Closed decidable facts, such as [ownKey] of a given key and
    [Observer.plain] of a given observer, are settled by their decision
    procedure. *)
Ltac decided :=
  unfold ownKey, Observer.plain; apply (bool_decide_unpack _); vm_compute; exact I.

(** ** Equations of the monad *)

Lemma with_hand_id p : with_hand (pokerInHand p) p = p.
Proof. by destruct p. Qed.

Lemma withPlayers_id w : withPlayers (players (game w)) w = w.
Proof. by destruct w as [[] ? ?]. Qed.

Lemma run_bind {A B} (m : M A) (k : A → M B) w :
  run (m ≫= k) w =
    match run m w with
    | (Ok a, w') => run (k a) w'
    | (Throw, w') => (Throw, w')
    end.
Proof. reflexivity. Qed.

Lemma run_bind_Ok {A B} (m : M A) (k : A → M B) w a w' :
  run m w = (Ok a, w') → run (m ≫= k) w = run (k a) w'.
Proof. intros E. by rewrite run_bind, E. Qed.

Lemma run_bind_Throw {A B} (m : M A) (k : A → M B) w w' :
  run m w = (Throw, w') → run (m ≫= k) w = (Throw, w').
Proof. intros E. by rewrite run_bind, E. Qed.

Lemma js_index_Some {A} (l : list A) (i : Z) (x : A) :
  js_index l i = Some x ↔ 0 ≤ i ∧ l !! Z.to_nat i = Some x.
Proof. unfold js_index. case_decide; [split; [done | lia] | split; [split; [lia | done] | tauto]]. Qed.

Lemma run_getPlayer w seat p :
  js_index (players (game w)) seat = Some p → run (getPlayer seat) w = (Ok p, w).
Proof. intros E. unfold getPlayer. rewrite run_bind. cbn. by rewrite E. Qed.

Lemma run_getPlayer_None w seat :
  js_index (players (game w)) seat = None → run (getPlayer seat) w = (Throw, w).
Proof. intros E. unfold getPlayer. rewrite run_bind. cbn. by rewrite E. Qed.

Lemma run_updPlayer w seat f p :
  js_index (players (game w)) seat = Some p →
  run (updPlayer seat f) w =
    (Ok (), withPlayers (<[Z.to_nat seat := f p]> (players (game w))) w).
Proof.
  intros E. unfold updPlayer.
  rewrite (run_bind_Ok _ _ _ _ _ (run_getPlayer _ _ _ E)). reflexivity.
Qed.

Lemma run_updPlayer_None w seat f :
  js_index (players (game w)) seat = None → run (updPlayer seat f) w = (Throw, w).
Proof.
  intros E. unfold updPlayer.
  by rewrite (run_bind_Throw _ _ _ _ (run_getPlayer_None _ _ E)).
Qed.

(** A loop that applies a method of the hand once for each card. *)
Lemma run_mapM_hand (f : Z → list (option Z) → list (option Z)) seat pids w p :
  js_index (players (game w)) seat = Some p →
  run (mapM (λ pid, updPlayer seat (λ q, with_hand (f pid (pokerInHand q)) q)) pids) w =
    (Ok (replicate (length pids) ()),
     withPlayers
       (<[Z.to_nat seat :=
            with_hand (foldl (λ h pid, f pid h) (pokerInHand p) pids) p]>
          (players (game w))) w).
Proof.
  revert w p. induction pids as [|pid pids IH]; intros w p E.
  - cbn. rewrite with_hand_id, list_insert_id, withPlayers_id; [done|].
    by apply js_index_Some in E as [_ ?].
  - cbn [mapM]. rewrite (run_bind_Ok _ _ _ _ _ (run_updPlayer _ _ _ _ E)).
    pose proof E as [Hs El]%js_index_Some.
    rewrite run_bind, (IH _ (with_hand (f pid (pokerInHand p)) p)).
    + cbn. by rewrite list_insert_insert_eq.
    + apply js_index_Some. split; [done|]. cbn.
      apply list_lookup_insert_eq. by eapply lookup_lt_Some.
Qed.

(** ** The deal *)

Lemma popped_S n pokers :
  popped (S n) pokers = last pokers :: popped n (removelast pokers).
Proof.
  unfold popped. destruct pokers as [|x l _] using rev_ind.
  - reflexivity.
  - rewrite last_snoc, removelast_last, reverse_snoc. cbn. f_equal.
    rewrite !take_app. f_equal.
    change (None :: replicate n None) with (replicate (S n) (@None Z)).
    rewrite !take_replicate. f_equal. lia.
Qed.

Lemma length_popped n pokers : length (popped n pokers) = n.
Proof.
  unfold popped. rewrite length_take, length_app, length_replicate. lia.
Qed.

Lemma popped_enough n pokers :
  (n ≤ length pokers)%nat → popped n pokers = Some <$> take n (reverse pokers).
Proof.
  intros Hn. unfold popped.
  rewrite take_app_le by (rewrite length_fmap, length_reverse; lia).
  by rewrite fmap_take.
Qed.

Lemma run_pushPoker w seat v p :
  js_index (players (game w)) seat = Some p →
  run (pushPoker seat v) w =
    (Ok (), withPlayers (<[Z.to_nat seat := with_hand (pokerInHand p ++ [v]) p]>
                           (players (game w))) w).
Proof. intros E. unfold pushPoker. by rewrite (run_updPlayer _ _ _ _ E). Qed.

Lemma run_dealLoop n : ∀ pokers w p0 p1 p2,
  players (game w) = [p0; p1; p2] →
  run (dealLoop n pokers) w =
    (Ok (), withPlayers
       [with_hand (pokerInHand p0 ++ popped n pokers) p0;
        with_hand (pokerInHand p1 ++ replicate n (Some 55)) p1;
        with_hand (pokerInHand p2 ++ replicate n (Some 55)) p2] w).
Proof.
  induction n as [|n IH]; intros pokers w p0 p1 p2 E.
  - cbn. rewrite !app_nil_r, !with_hand_id, <- E. by rewrite withPlayers_id.
  - cbn [dealLoop].
    rewrite (run_bind_Ok _ _ _ _ _ (run_pushPoker w 2 _ p2 ltac:(by rewrite E))).
    rewrite E. cbn [Z.to_nat Pos.to_nat Pos.iter_op Nat.add list_insert].
    erewrite run_bind_Ok; last by apply (run_pushPoker _ 1 _ p1).
    cbn [withPlayers withGame game players Z.to_nat Pos.to_nat Pos.iter_op Nat.add list_insert].
    erewrite run_bind_Ok; last by apply (run_pushPoker _ 0 _ p0).
    cbn [withPlayers withGame game players Z.to_nat list_insert].
    erewrite IH; last reflexivity.
    cbn. rewrite popped_S, <- !app_assoc. cbn.
    reflexivity.
Qed.

Lemma Observer_set_plain key v o :
  key ≠ "countdown" → (split_dot key).2 = [] →
  Observer.set key v o =
    (let o' := Observer.mk (<[key := v]> (Observer.state o)) (Observer.subscribers o) in
     (Ok (Observer.notify key o'), o')).
Proof.
  intros Hk Hs. unfold Observer.set. case_decide; [done|].
  destruct (split_dot key) as [k0 [|k1 ks]]; [done | discriminate].
Qed.

(** No call throws when no value is [undefined] or [null]. *)
Lemma callsMade_quiet calls :
  Forall (λ c, subscriberThrows c.1 c.2 = false) calls →
  callsMade calls = (calls, false).
Proof.
  induction 1 as [|c calls Hc _ IH]; [done|]. cbn. by rewrite Hc, IH.
Qed.

Lemma subscriberThrows_value cb v :
  v ≠ VUndefined → v ≠ VNull → subscriberThrows cb v = false.
Proof. intros H1 H2. unfold subscriberThrows. case_decide; [|done]. by destruct v. Qed.

Lemma notify_quiet key o :
  Observer.get key o ≠ VUndefined → Observer.get key o ≠ VNull →
  callsMade (Observer.notify key o) = (Observer.notify key o, false).
Proof.
  intros H1 H2. apply callsMade_quiet. unfold Observer.notify.
  destruct (Observer.subscribers o !! key) as [cbs|]; [|done].
  apply Forall_forall. intros c [cb [Hcb Hc]]%list_elem_of_omap.
  destruct cb as [f|]; [|done]. injection Hc as <-. cbn.
  by apply subscriberThrows_value.
Qed.

Lemma run_observerSet_plain key v w :
  key ≠ "countdown" → (split_dot key).2 = [] →
  v ≠ VUndefined → v ≠ VNull →
  run (observerSet key v) w =
    (let o' := Observer.mk (<[key := v]> (Observer.state (observer w)))
                 (Observer.subscribers (observer w)) in
     (Ok (), mkWorld (game w) o'
               (log w ++ ((λ c, Notify c.1 c.2) <$> Observer.notify key o'))%list)).
Proof.
  intros Hk Hs H1 H2. unfold observerSet, run. rewrite Observer_set_plain by done.
  cbv beta iota zeta. rewrite notify_quiet; [done| |]; unfold Observer.get; cbn;
    by rewrite lookup_insert_eq.
Qed.

(** Whether it returns or throws, [observer.set] leaves the observer as
    [Observer.set] does, the game alone, and logs calls of subscribers. *)
Lemma observerSet_world key v w :
  ∃ made,
    exec (observerSet key v) w =
      mkWorld (game w) (Observer.set key v (observer w)).2
        (log w ++ ((λ c, Notify c.1 c.2) <$> made))%list.
Proof.
  unfold exec, observerSet, run.
  destruct (Observer.set key v (observer w)) as [[calls|] o]; cbn [snd].
  - destruct (callsMade calls) as [made thrown]. by exists made.
  - exists []. cbn. by rewrite app_nil_r.
Qed.

Section DealHandler.

Context `{PM : PlayerModule}.

Lemma run_dealPoker pokers w p0 p1 p2 :
  players (game w) = [p0; p1; p2] →
  run (dealPoker pokers) w =
    (Ok (), withGame (mkGame
       [with_hand (pokerInHand p0 ++ popped 17 pokers) p0;
        with_hand (pokerInHand p1 ++ replicate 17 (Some 55)) p1;
        with_hand (pokerInHand p2 ++ replicate 17 (Some 55)) p2]
       (tablePoker (game w)) ({[55]} ∪ tablePokerPic (game w))
       (lastShotPlayer (game w)) (whoseTurn (game w))) w).
Proof.
  intros E. unfold dealPoker. rewrite run_bind. cbn [run getGame].
  rewrite run_bind. unfold setTablePokerPic at 1. rewrite run_bind.
  cbn [run getGame putGame].
  erewrite run_dealLoop; last by cbn. reflexivity.
Qed.

Lemma uidToSeat_first u p ps : u = uid p → uidToSeat_from 3 0 u (p :: ps) = Ok 0.
Proof. intros ->. cbn. by case_decide. Qed.

(** C6 (amended).  The deal handler makes no check of the size of the
    dealt hand and raises no protocol error.  A deal addressed to the
    local player always returns normally and appends exactly 17 entries
    to the hand of seat 0: what 17 calls of [pop] give, that is the last
    17 cards in reverse order when the list has at least 17 cards (cards
    before them are never dealt); each peer hand gets 17 placeholders
    55, [whoseTurn] becomes 0, the bidding opens for the local seat, the
    table is left alone and no request is sent. *)
Theorem deal_any_size w playerId pokers p0 p1 p2 :
  players (game w) = [p0; p1; p2] →
  playerId = uid p0 →
  ∃ w',
    run (onmessage (RSP_DEAL_POKER playerId pokers)) w = (Ok (), w') ∧
    players (game w') =
      [with_hand (pokerInHand p0 ++ popped 17 pokers) p0;
       with_hand (pokerInHand p1 ++ replicate 17 (Some 55)) p1;
       with_hand (pokerInHand p2 ++ replicate 17 (Some 55)) p2] ∧
    length (popped 17 pokers) = 17%nat ∧
    ((17 ≤ length pokers)%nat → popped 17 pokers = Some <$> take 17 (reverse pokers)) ∧
    whoseTurn (game w') = 0 ∧
    tablePoker (game w') = tablePoker (game w) ∧
    Observer.get "rob" (observer w') = VBool true ∧
    ∀ r, Send r ∈ log w' → Send r ∈ log w.
Proof.
  intros E ->. eexists. split.
  - cbn [onmessage].
    erewrite run_bind_Ok; last by (apply run_getPlayer; rewrite E).
    rewrite decide_True by done.
    erewrite run_bind_Ok; last by apply run_dealPoker.
    rewrite run_bind. unfold uidToSeat at 1. cbn [run withGame game players].
    rewrite uidToSeat_first by done.
    rewrite run_bind. unfold setWhoseTurn at 1. rewrite run_bind.
    cbn [run getGame putGame game players tablePoker tablePokerPic lastShotPlayer observer log].
    unfold startCallScore. rewrite run_bind. cbn [run getGame game whoseTurn].
    rewrite decide_True by done.
    by rewrite run_observerSet_plain.
  - cbn. repeat split.
    + apply length_popped.
    + apply popped_enough.
    + unfold Observer.get. cbn. by rewrite lookup_insert_eq.
    + intros r [Hr|Hr]%elem_of_app; [done|].
      apply list_elem_of_fmap in Hr as (c & Hc & _). discriminate.
Qed.

End DealHandler.

Lemma filter_none {A} (P : A → Prop) `{∀ x, Decision (P x)} (l : list A) :
  Forall (λ x, ¬ P x) l → filter P l = [].
Proof.
  induction 1 as [|x l Hx _ IH]; [done|]. by rewrite filter_cons_False.
Qed.

Lemma filter_eq_NoDup {A} `{EqDecision A} (x : A) (l : list A) :
  NoDup l → (length (filter (λ y, y = x) l) ≤ 1)%nat.
Proof.
  induction 1 as [|y l Hy _ IH]; [cbn; lia|].
  rewrite filter_cons. case_decide as E; [|exact IH]. subst y. cbn.
  rewrite (filter_none _ l); [cbn; lia|].
  by apply Forall_forall; intros z Hz ->.
Qed.

Lemma filter_take_length {A} (P : A → Prop) `{∀ x, Decision (P x)} n (l : list A) :
  (length (filter P (take n l)) ≤ length (filter P l))%nat.
Proof.
  rewrite <- (take_drop n l) at 2. rewrite filter_app, length_app. lia.
Qed.

Lemma popped_occurs_once c n pokers :
  NoDup pokers → (length (filter (λ x, x = Some c) (popped n pokers)) ≤ 1)%nat.
Proof.
  intros Hnd. unfold popped.
  etrans; [apply filter_take_length|].
  rewrite filter_app, length_app.
  rewrite (filter_none _ (replicate n None)).
  - cbn. rewrite Nat.add_0_r. apply filter_eq_NoDup.
    apply (NoDup_fmap _). by rewrite reverse_Permutation.
  - apply Forall_forall. by intros ? [-> _]%elem_of_replicate.
Qed.

Lemma not_in_deck_55 : 55 ∉ deck.
Proof. unfold deck. rewrite elem_of_seqZ. lia. Qed.

(** C1 (amended).  In the state produced by the deal, from empty hands
    and an empty table, of a list of cards without duplicates: seat 0
    holds the cards popped from the list, seats 1 and 2 each hold 17
    copies of the placeholder 55, which is no card of the deck 1..54; so
    each CardId of the deck appears at most once across the three hands,
    the bottom cards and the cards played, and no CardId of the deck is
    held by the hands of two different seats. *)
Theorem deal_conservation w pokers p0 p1 p2 :
  players (game w) = [p0; p1; p2] →
  pokerInHand p0 = [] → pokerInHand p1 = [] → pokerInHand p2 = [] →
  tablePoker (game w) = [] →
  NoDup pokers →
  let g' := game (exec (dealPoker pokers) w) in
  fst (run (dealPoker pokers) w) = Ok () ∧
  hand 0 g' = popped 17 pokers ∧
  hand 1 g' = replicate 17 (Some 55) ∧
  hand 2 g' = replicate 17 (Some 55) ∧
  ∀ c, c ∈ deck →
    (occurrences c g' [] ≤ 1)%nat ∧ (Some c ∉ hand 1 g') ∧ (Some c ∉ hand 2 g').
Proof.
  intros E H0 H1 H2 Ht Hnd g'. subst g'. unfold exec.
  rewrite (run_dealPoker _ _ _ _ _ E), H0, H1, H2.
  cbn [fst snd withGame game hand players lookup list_lookup from_option
       pokerInHand with_hand app].
  repeat split; try done.
  - unfold occurrences, hand.
    cbn [players tablePoker lookup list_lookup from_option pokerInHand with_hand].
    rewrite Ht. cbn [fmap list_fmap]. rewrite !app_nil_r.
    rewrite !filter_app, !length_app.
    rewrite (filter_none _ (replicate 17 (Some 55))).
    + cbn [length]. rewrite !Nat.add_0_r. by apply popped_occurs_once.
    + apply Forall_forall. intros ? [-> _]%elem_of_replicate [=]. subst c.
      by apply not_in_deck_55.
  - intros [[=] _]%elem_of_replicate. subst c. by apply not_in_deck_55.
  - intros [[=] _]%elem_of_replicate. subst c. by apply not_in_deck_55.
Qed.

(** C1, as stated, fails on the state reached by creating the scene,
    joining and receiving the deal of the cards 1..17 (the deal of the
    simulated server): nothing has been played, the card 18 of the deck
    is in no hand and not on the table, and the placeholder 55 is held by
    seat 1 and by seat 2 at once. *)
Lemma deal_conservation_counterexample :
  18 ∈ deck ∧
  occurrences 18 (game dealt) [] = 0%nat ∧
  Some 55 ∈ hand 1 (game dealt) ∧ Some 55 ∈ hand 2 (game dealt).
Proof.
  split; [unfold deck; rewrite elem_of_seqZ; lia|].
  split; [evaluate|].
  split; apply list_elem_of_In; vm_compute; tauto.
Qed.

(** The theorem on the scene as created, for the deal of the cards 1 to 17. *)
Lemma deal_conservation_witness :
  let w := exec (create (mkLocal 1 "local")) world0 in
  NoDup (seqZ 1 17) ∧
  ∀ c, c ∈ deck →
    (occurrences c (game (exec (dealPoker (seqZ 1 17)) w)) [] ≤ 1)%nat ∧
    (Some c ∉ hand 1 (game (exec (dealPoker (seqZ 1 17)) w))) ∧
    (Some c ∉ hand 2 (game (exec (dealPoker (seqZ 1 17)) w))).
Proof.
  intros w. split; [apply NoDup_seqZ|].
  apply (deal_conservation w (seqZ 1 17)
           (mkPlayer 1 "local" [] false) (mkPlayer 1 "" [] false)
           (mkPlayer 2 "" [] false));
    first [evaluate | apply NoDup_seqZ].
Defined.

(** C6, as stated, fails: a deal of 18 cards, and one of 16, to the
    joined local player is handled like any other.  The handler returns,
    seat 0 holds 17 entries: the cards 18 down to 2 (the card 1 is never
    dealt), respectively the cards 16 down to 1 and one [undefined]. *)
Lemma deal_any_size_counterexample :
  length (seqZ 1 18) ≠ 17%nat ∧
  fst (run (onmessage (RSP_DEAL_POKER 1 (seqZ 1 18))) joined) = Ok () ∧
  hand 0 (game (exec (onmessage (RSP_DEAL_POKER 1 (seqZ 1 18))) joined))
    = Some <$> reverse (seqZ 2 17) ∧
  length (seqZ 1 16) ≠ 17%nat ∧
  fst (run (onmessage (RSP_DEAL_POKER 1 (seqZ 1 16))) joined) = Ok () ∧
  hand 0 (game (exec (onmessage (RSP_DEAL_POKER 1 (seqZ 1 16))) joined))
    = ((Some <$> reverse (seqZ 1 16)) ++ [None])%list.
Proof. split_and!; try discriminate; evaluate. Qed.

(** The theorem on the joined table, for a deal of 20 cards. *)
Lemma deal_any_size_witness :
  players (game joined) =
    [mkPlayer 1 "local" [] false; mkPlayer 2 "cpu1" [] false; mkPlayer 3 "cpu2" [] false] ∧
  ∃ w', run (onmessage (RSP_DEAL_POKER 1 (seqZ 1 20))) joined = (Ok (), w') ∧
        whoseTurn (game w') = 0.
Proof.
  split; [evaluate|].
  destruct (@deal_any_size SpecPlayers joined 1 (seqZ 1 20)
              (mkPlayer 1 "local" [] false) (mkPlayer 2 "cpu1" [] false)
              (mkPlayer 3 "cpu2" [] false) eq_refl eq_refl)
    as (w' & Hrun & _ & _ & _ & Ht & _).
  exists w'. split; assumption.
Defined.

(** ** Plays and passes *)

Lemma uidToSeat_from_Ok n : ∀ i u ps s,
  uidToSeat_from n i u ps = Ok s →
  s = -1 ∨ (Z.of_nat i ≤ s < Z.of_nat (i + n) ∧
            ∃ p, ps !! Z.to_nat s = Some p ∧ u = uid p).
Proof.
  induction n as [|n IH]; intros i u ps s; cbn.
  - intros [= <-]. by left.
  - destruct (ps !! i) as [p|] eqn:Ep; [|done].
    case_decide as Eu.
    + intros [= <-]. right. split; [lia|]. exists p. by rewrite Nat2Z.id.
    + intros [Hs | [Hs Hp]]%IH; [by left | right]. split; [lia | done].
Qed.

Lemma uidToSeat_Ok u ps s :
  uidToSeat_from 3 0 u ps = Ok s →
  s = -1 ∨ (0 ≤ s < 3 ∧ ∃ p, ps !! Z.to_nat s = Some p ∧ u = uid p).
Proof. intros H%uidToSeat_from_Ok. cbn in H. lia || tauto. Qed.

Lemma uidToSeat_from_uids n : ∀ i u ps ps',
  uid <$> ps = uid <$> ps' →
  uidToSeat_from n i u ps = uidToSeat_from n i u ps'.
Proof.
  induction n as [|n IH]; intros i u ps ps' E; [done|]. cbn.
  assert (uid <$> ps !! i = uid <$> ps' !! i) as Ei
    by (by rewrite <- !list_lookup_fmap, E).
  destruct (ps !! i) as [p|], (ps' !! i) as [p'|]; try done.
  injection Ei as ->. case_decide; [done|]. by apply IH.
Qed.

Lemma uidToSeat_from_total n : ∀ i u ps,
  (i + n ≤ length ps)%nat → ∃ s, uidToSeat_from n i u ps = Ok s.
Proof.
  induction n as [|n IH]; intros i u ps Hl; cbn; [by eexists|].
  destruct (lookup_lt_is_Some_2 ps i) as [p ->]; [lia|].
  case_decide; [by eexists|]. apply IH. lia.
Qed.

Section Shot.

Context `{PM : PlayerModule}.

Lemma run_uidToSeat w u : run (uidToSeat u) w = (uidToSeat_from 3 0 u (players (game w)), w).
Proof. reflexivity. Qed.

Lemma run_setWhoseTurn w t : run (setWhoseTurn t) w = (Ok (), withWhoseTurn t w).
Proof. reflexivity. Qed.

Lemma run_tableSprites w :
  Forall (λ pid, pid ∈ tablePokerPic (game w)) (tablePoker (game w)) →
  run tableSprites w = (Ok (), w).
Proof. intros H. unfold tableSprites. rewrite run_bind. cbn. by rewrite decide_True. Qed.

Lemma run_tableSprites_Throw w :
  ¬ Forall (λ pid, pid ∈ tablePokerPic (game w)) (tablePoker (game w)) →
  run tableSprites w = (Throw, w).
Proof. intros H. unfold tableSprites. rewrite run_bind. cbn. by rewrite decide_False. Qed.

(** The end of [handleShotPoker], from the test of the hand on. *)
Lemma run_shot_tail w s p :
  js_index (players (game w)) s = Some p →
  run (turnPlayer ← getPlayer s;
       if decide (0 < length (pokerInHand turnPlayer))%nat then
         setWhoseTurn (Z.rem (s + 1) 3);;
         if decide (Z.rem (s + 1) 3 = 0) then emit (Timer 1000 CbStartPlay)
         else mret ()
       else mret ()) w = (Ok (), passTurn s (pokerInHand p) w).
Proof.
  intros E. rewrite (run_bind_Ok _ _ _ _ _ (run_getPlayer _ _ _ E)).
  unfold passTurn. case_decide; [|reflexivity].
  rewrite run_bind, run_setWhoseTurn. case_decide; reflexivity.
Qed.

Lemma run_handleShotPoker_pass w packet s p :
  shot_pokers packet = [] →
  uidToSeat_from 3 0 (shot_uid packet) (players (game w)) = Ok s →
  js_index (players (game w)) s = Some p →
  run (handleShotPoker packet) w =
    (Ok (), passTurn s (pokerInHand p) (withWhoseTurn s w)).
Proof.
  intros Hp Hs E. unfold handleShotPoker.
  rewrite run_bind, run_uidToSeat, Hs, run_bind, run_setWhoseTurn.
  rewrite (decide_True (P:=shot_pokers packet = [])) by done.
  rewrite run_bind.
  erewrite (run_bind_Ok (getPlayer s)); last by apply run_getPlayer.
  cbn [run mret M_ret]. by apply run_shot_tail.
Qed.

Lemma run_handleShotPoker_play w packet s p :
  shot_pokers packet ≠ [] →
  uidToSeat_from 3 0 (shot_uid packet) (players (game w)) = Ok s →
  js_index (players (game w)) s = Some p →
  Forall (λ pid, pid ∈ tablePokerPic (game w)) (tablePoker (game w)) →
  let pokers := sortByComparePoker (shot_pokers packet) in
  let h := foldl (λ h pid, removeAPoker pid h) (pokerInHand p) pokers in
  run (handleShotPoker packet) w =
    (Ok (), passTurn s h
       (mkWorld
          (mkGame (<[Z.to_nat s := with_hand h p]> (players (game w)))
             pokers (list_to_set pokers) (Some (Z.to_nat s)) s)
          (observer w) (log w))).
Proof.
  intros Hp Hs E Hpic pokers h. unfold handleShotPoker.
  rewrite run_bind, run_uidToSeat, Hs, run_bind, run_setWhoseTurn.
  rewrite (decide_False (P:=shot_pokers packet = [])) by done.
  rewrite run_bind. fold pokers.
  erewrite (run_bind_Ok (mapM _ _));
    last by apply (run_mapM_hand (λ pid h, removeAPoker pid h) s pokers _ p).
  erewrite (run_bind_Ok tableSprites); last by apply run_tableSprites.
  cbn [run mbind M_bind setTablePoker setTablePokerPic setLastShotPlayer getGame putGame
       withPlayers withWhoseTurn withGame game players tablePoker tablePokerPic
       lastShotPlayer whoseTurn observer log].
  apply (run_shot_tail _ s (with_hand h p)).
  apply js_index_Some. apply js_index_Some in E as [? E]. split; [done|]. cbn.
  apply list_lookup_insert_eq. by eapply lookup_lt_Some.
Qed.

Lemma run_handleShotPoker_unknown w packet s :
  uidToSeat_from 3 0 (shot_uid packet) (players (game w)) = Ok s →
  js_index (players (game w)) s = None →
  run (handleShotPoker packet) w = (Throw, withWhoseTurn s w).
Proof.
  intros Hs E. unfold handleShotPoker.
  rewrite run_bind, run_uidToSeat, Hs, run_bind, run_setWhoseTurn.
  rewrite run_bind. case_decide as Hp.
  - by erewrite (run_bind_Throw (getPlayer s)); last by apply run_getPlayer_None.
  - pose proof (sortByComparePoker_perm (shot_pokers packet)) as Hperm.
    destruct (sortByComparePoker (shot_pokers packet)) as [|pid pids].
    + symmetry in Hperm. by apply Permutation_nil_r in Hperm.
    + cbn [mapM]. rewrite !run_bind.
      by erewrite run_updPlayer_None.
Qed.

Lemma run_handleShotPoker_no_sprite w packet s p :
  shot_pokers packet ≠ [] →
  uidToSeat_from 3 0 (shot_uid packet) (players (game w)) = Ok s →
  js_index (players (game w)) s = Some p →
  ¬ Forall (λ pid, pid ∈ tablePokerPic (game w)) (tablePoker (game w)) →
  let pokers := sortByComparePoker (shot_pokers packet) in
  let h := foldl (λ h pid, removeAPoker pid h) (pokerInHand p) pokers in
  run (handleShotPoker packet) w =
    (Throw, withPlayers (<[Z.to_nat s := with_hand h p]> (players (game w)))
              (withWhoseTurn s w)).
Proof.
  intros Hp Hs E Hpic pokers h. unfold handleShotPoker.
  rewrite run_bind, run_uidToSeat, Hs, run_bind, run_setWhoseTurn.
  rewrite (decide_False (P:=shot_pokers packet = [])) by done.
  rewrite run_bind. fold pokers.
  erewrite (run_bind_Ok (mapM _ _));
    last by apply (run_mapM_hand (λ pid h, removeAPoker pid h) s pokers _ p).
  by erewrite (run_bind_Throw tableSprites); last by apply run_tableSprites_Throw.
Qed.

Lemma run_handleShotPoker_Throw w packet :
  uidToSeat_from 3 0 (shot_uid packet) (players (game w)) = Throw →
  run (handleShotPoker packet) w = (Throw, w).
Proof.
  intros Hs. unfold handleShotPoker. by rewrite run_bind, run_uidToSeat, Hs.
Qed.

Lemma log_passTurn s h w :
  log (passTurn s h w) = log w ∨ log (passTurn s h w) = (log w ++ [Timer 1000 CbStartPlay])%list.
Proof. unfold passTurn. repeat case_decide; cbn; auto. Qed.

(** The handler logs nothing but the prompt of the local player. *)
Lemma log_handleShotPoker w packet :
  log (exec (handleShotPoker packet) w) = log w ∨
  log (exec (handleShotPoker packet) w) = (log w ++ [Timer 1000 CbStartPlay])%list.
Proof.
  unfold exec.
  destruct (uidToSeat_from 3 0 (shot_uid packet) (players (game w))) as [s|] eqn:Hs;
    [|rewrite run_handleShotPoker_Throw by done; by left].
  destruct (js_index (players (game w)) s) as [p|] eqn:E;
    [|rewrite (run_handleShotPoker_unknown _ _ s) by done; by left].
  destruct (decide (shot_pokers packet = [])) as [Hp|Hp].
  { rewrite (run_handleShotPoker_pass _ _ _ _ Hp Hs E).
    apply (log_passTurn s _ (withWhoseTurn s w)). }
  destruct (decide (Forall (λ pid, pid ∈ tablePokerPic (game w)) (tablePoker (game w))))
    as [Hpic|Hpic].
  - rewrite (run_handleShotPoker_play _ _ _ _ Hp Hs E Hpic).
    apply (log_passTurn s _ (mkWorld _ (observer w) (log w))).
  - rewrite (run_handleShotPoker_no_sprite _ _ _ _ Hp Hs E Hpic). by left.
Qed.

Lemma players_passTurn s h w : players (game (passTurn s h w)) = players (game w).
Proof. unfold passTurn. by case_decide. Qed.

Lemma passTurn_nonempty s h w :
  h ≠ [] → whoseTurn (game (passTurn s h w)) = Z.rem (s + 1) 3.
Proof.
  intros Hh. unfold passTurn. rewrite decide_True; [done|].
  destruct h; [done | cbn; lia].
Qed.

Lemma passTurn_empty s w : passTurn s [] w = w.
Proof. reflexivity. Qed.

(** What a play handler that returns has done to the turn. *)
Lemma handleShotPoker_Ok w packet s w' :
  uidToSeat_from 3 0 (shot_uid packet) (players (game w)) = Ok s →
  run (handleShotPoker packet) w = (Ok (), w') →
  0 ≤ s < 3 ∧
  ∃ p', players (game w') !! Z.to_nat s = Some p' ∧
        (pokerInHand p' ≠ [] → whoseTurn (game w') = (s + 1) mod 3) ∧
        (pokerInHand p' = [] → whoseTurn (game w') = s ∧ log w' = log w).
Proof.
  intros Hs Hrun.
  destruct (js_index (players (game w)) s) as [p|] eqn:E;
    [|by rewrite (run_handleShotPoker_unknown _ _ s) in Hrun].
  pose proof E as [Hs0 El]%js_index_Some.
  assert (0 ≤ s < 3) as Hrange by (apply uidToSeat_Ok in Hs; lia).
  split; [done|].
  assert (Z.rem (s + 1) 3 = (s + 1) mod 3) as Hrem by (apply Z.rem_mod_nonneg; lia).
  destruct (decide (shot_pokers packet = [])) as [Hp|Hp].
  { rewrite (run_handleShotPoker_pass _ _ _ _ Hp Hs E) in Hrun.
    injection Hrun as <-. exists p. rewrite players_passTurn. split; [done|]. split.
    - intros Hh. by rewrite passTurn_nonempty.
    - intros ->. by rewrite passTurn_empty. }
  destruct (decide (Forall (λ pid, pid ∈ tablePokerPic (game w)) (tablePoker (game w))))
    as [Hpic|Hpic];
    [|by rewrite (run_handleShotPoker_no_sprite _ _ _ _ Hp Hs E Hpic) in Hrun].
  rewrite (run_handleShotPoker_play _ _ _ _ Hp Hs E Hpic) in Hrun.
  injection Hrun as <-. eexists. rewrite players_passTurn. cbn [game players].
  split; [apply list_lookup_insert_eq; by eapply lookup_lt_Some|].
  cbn [pokerInHand with_hand]. split.
  - intros Hh. by rewrite passTurn_nonempty.
  - intros ->. by rewrite passTurn_empty.
Qed.

(** C3 (amended).  The play handler never compares the seat of a play
    event with [whoseTurn]: with the three players in place, its outcome
    is the same whatever [whoseTurn] was before.  It adopts the seat of
    the event as the acting seat and applies the play: when it returns,
    [whoseTurn] is that seat or the next one.  It sends no request, be it
    for a resynchronization or any other. *)
Theorem play_adopts_event_seat w packet t :
  length (players (game w)) = 3%nat →
  run (handleShotPoker packet) (withWhoseTurn t w) = run (handleShotPoker packet) w ∧
  (∀ s w',
     uidToSeat_from 3 0 (shot_uid packet) (players (game w)) = Ok s →
     run (handleShotPoker packet) (withWhoseTurn t w) = (Ok (), w') →
     whoseTurn (game w') = s ∨ whoseTurn (game w') = (s + 1) mod 3) ∧
  ∀ r, Send r ∈ log (exec (handleShotPoker packet) w) → Send r ∈ log w.
Proof.
  intros Hl.
  assert (run (handleShotPoker packet) (withWhoseTurn t w) =
          run (handleShotPoker packet) w) as Hsame.
  { destruct (uidToSeat_from_total 3 0 (shot_uid packet) (players (game w)))
      as [s Hs]; [lia|].
    unfold handleShotPoker. rewrite !(run_bind (uidToSeat _)), !run_uidToSeat.
    cbn [withWhoseTurn withGame game players].
    rewrite Hs, !(run_bind (setWhoseTurn _)), !run_setWhoseTurn. reflexivity. }
  split; [exact Hsame|]. split.
  - intros s w' Hs Hrun. rewrite Hsame in Hrun.
    destruct (handleShotPoker_Ok w packet s w' Hs Hrun) as (_ & p' & _ & Hne & He).
    destruct (pokerInHand p'); [left; by apply He | right; by apply Hne].
  - intros r. destruct (log_handleShotPoker w packet) as [-> | ->]; [done|].
    intros [?|[=]%list_elem_of_singleton]%elem_of_app. done.
Qed.

Lemma run_revealHands hands : ∀ w,
  length (players (game w)) = 3%nat →
  ∃ ps, run (revealHands hands) w = (Ok (), withPlayers ps w) ∧
        uid <$> ps = uid <$> players (game w).
Proof.
  induction hands as [|[u pokers] hands IH]; intros w Hl.
  - exists (players (game w)). by rewrite withPlayers_id.
  - cbn [revealHands]. rewrite run_bind, run_uidToSeat.
    destruct (uidToSeat_from_total 3 0 u (players (game w))) as [seat Hseat]; [lia|].
    rewrite Hseat, run_bind. case_decide as Hpos.
    + apply uidToSeat_Ok in Hseat as [->|[Hr (p & Hp & ->)]]; [lia|].
      rewrite (run_updPlayer _ _ _ p) by (apply js_index_Some; split; [lia|done]).
      set (ps1 := <[Z.to_nat seat := _]> (players (game w))).
      assert (uid <$> ps1 = uid <$> players (game w)) as Hu.
      { unfold ps1. rewrite list_fmap_insert. apply list_insert_id.
        by rewrite list_lookup_fmap, Hp. }
      destruct (IH (withPlayers ps1 w)) as (ps & Hrun & Hps).
      { cbn. rewrite <- (length_fmap uid), Hu, length_fmap. done. }
      exists ps. split; [by rewrite Hrun | by rewrite Hps].
    + by apply IH.
Qed.

(** C2 (amended).  For a play event of seat [s] whose handler returns:
    if the hand of [s] is not empty afterwards, [whoseTurn] is
    (s+1) mod 3; if it is empty, [whoseTurn] stays at [s] and the handler
    schedules and sends nothing.  The handler makes no transition to the
    end of the round: that is made by the game-over message of the server,
    whose handler sets [whoseTurn] to the seat of the winner it names and
    schedules the game-over callback two seconds later. *)
Theorem play_turn_and_round_over :
  (∀ w packet s w',
     uidToSeat_from 3 0 (shot_uid packet) (players (game w)) = Ok s →
     run (handleShotPoker packet) w = (Ok (), w') →
     0 ≤ s < 3 ∧
     ∃ p', players (game w') !! Z.to_nat s = Some p' ∧
           (pokerInHand p' ≠ [] → whoseTurn (game w') = (s + 1) mod 3) ∧
           (pokerInHand p' = [] → whoseTurn (game w') = s ∧ log w' = log w)) ∧
  (∀ w winner hands s,
     length (players (game w)) = 3%nat →
     uidToSeat_from 3 0 winner (players (game w)) = Ok s →
     ∃ w', run (onmessage (RSP_GAME_OVER winner hands)) w = (Ok (), w') ∧
           whoseTurn (game w') = s ∧
           log w' = (log w ++ [Timer 2000 CbGameOver])%list).
Proof.
  split; [apply handleShotPoker_Ok|].
  intros w winner hands s Hl Hs. cbn [onmessage].
  destruct (run_revealHands hands w Hl) as (ps & Hrun & Hps).
  rewrite (run_bind_Ok _ _ _ _ _ Hrun), run_bind, run_uidToSeat.
  cbn [withPlayers withGame game players].
  rewrite (uidToSeat_from_uids 3 0 winner ps (players (game w)) Hps), Hs.
  eexists. split; [reflexivity|]. done.
Qed.

End Shot.

Section Pass.

Context `{PM : PlayerModule}.

Lemma run_startPlay w p :
  whoseTurn (game w) = 0 →
  players (game w) !! 0%nat = Some p →
  run startPlay w =
    (Ok (), mkWorld (game w) (observer w)
       (log w ++ [PlayPoker (if bool_decide (lastShotPlayer (game w) = Some 0%nat)
                             then [] else tablePoker (game w))])).
Proof.
  intros Ht Hp. unfold startPlay. rewrite run_bind. cbn [run getGame].
  rewrite decide_False.
  2:{ rewrite Ht. apply lookup_lt_Some in Hp. lia. }
  unfold isLastShotPlayer. rewrite !run_bind. cbn [run getGame].
  erewrite (run_bind_Ok (getPlayer _)); last by (apply (run_getPlayer _ _ p); rewrite Ht).
  cbn [run mret M_ret]. rewrite Ht. change (Z.to_nat 0) with 0%nat.
  case_bool_decide; reflexivity.
Qed.


End Pass.


(** C3, as stated, fails on Scenario C: it is the turn of seat 0 and a
    play of the card 20 by seat 1 arrives.  The handler returns, the card
    lies on the table as the play of seat 1 and the turn has gone on to
    seat 2; the log is as before, no request has been sent. *)
Lemma play_adopts_event_seat_counterexample :
  whoseTurn (game led) = 0 ∧
  uidToSeat_from 3 0 2 (players (game led)) = Ok 1 ∧
  fst (run (handleShotPoker (mkShot 2 [20] (VNum 2))) led) = Ok () ∧
  whoseTurn (game (exec (handleShotPoker (mkShot 2 [20] (VNum 2))) led)) = 2 ∧
  tablePoker (game (exec (handleShotPoker (mkShot 2 [20] (VNum 2))) led)) = [20] ∧
  lastShotPlayer (game (exec (handleShotPoker (mkShot 2 [20] (VNum 2))) led)) = Some 1%nat ∧
  log (exec (handleShotPoker (mkShot 2 [20] (VNum 2))) led) = log led.
Proof. split_and!; evaluate. Qed.

(** The theorem on the table where the landlord has led. *)
Lemma play_adopts_event_seat_witness :
  length (players (game led)) = 3%nat ∧
  run (handleShotPoker (mkShot 2 [20] (VNum 2))) (withWhoseTurn 1 led) =
    run (handleShotPoker (mkShot 2 [20] (VNum 2))) led.
Proof.
  split; [evaluate|].
  apply (@play_adopts_event_seat SpecPlayers led (mkShot 2 [20] (VNum 2)) 1).
  evaluate.
Defined.

(** C2, as stated, fails where the hand becomes empty: it is the turn of
    seat 0, which plays its 17 cards at once.  The handler of the message
    returns, the hand of seat 0 is empty and [whoseTurn] is still 0, but
    nothing makes the round end: the only entry added to the log is the
    refresh of the title bar, and the timer has been handed the hand-over
    of the bottom cards and the prompt of the local player, no game-over
    callback. *)
Lemma play_turn_and_round_over_counterexample :
  let m := RSP_SHOT_POKER (mkShot 1 (seqZ 1 17) (VNum 2)) in
  whoseTurn (game led) = 0 ∧
  fst (run (onmessage m) led) = Ok () ∧
  hand 0 (game (exec (onmessage m) led)) = [] ∧
  whoseTurn (game (exec (onmessage m) led)) = 0 ∧
  log (exec (onmessage m) led) =
    (log led ++ [Notify 0 (Observer.get "room" (observer led))])%list ∧
  scheduled (exec (onmessage m) led) =
    [(1500, CbDealLastThreePoker); (1000, CbStartPlay)].
Proof. intros m. split_and!; evaluate. Qed.

(** The theorem on the table where the landlord has led: the local player
    plays the card 17 and the turn goes to seat 1; a game-over message that
    names the player 3 sets [whoseTurn] to seat 2. *)
Lemma play_turn_and_round_over_witness :
  uidToSeat_from 3 0 1 (players (game led)) = Ok 0 ∧
  whoseTurn (game (exec (handleShotPoker (mkShot 1 [17] (VNum 2))) led)) = 1 ∧
  ∃ w', run (onmessage (RSP_GAME_OVER 3 [])) led = (Ok (), w') ∧
        whoseTurn (game w') = 2.
Proof.
  split; [evaluate|].
  destruct (@play_turn_and_round_over SpecPlayers) as [Hplay Hover]. split.
  - destruct (Hplay led (mkShot 1 [17] (VNum 2)) 0
                (exec (handleShotPoker (mkShot 1 [17] (VNum 2))) led))
      as (_ & p' & Hp' & Hne & _); [evaluate | evaluate |].
    apply Hne. vm_compute in Hp'. injection Hp' as <-. discriminate.
  - destruct (Hover led 3 [] 2) as (w' & Hrun & Ht & _); [evaluate | evaluate |].
    exists w'. split; assumption.
Defined.

(** ** Restart *)

Section Restart.

Context `{PM : PlayerModule}.

(** C9 (amended).  A restart replaces the three players by newly
    created ones, empties the trick (no card on the table, no last
    player) and sets [whoseTurn] to 0; it leaves the observer, which
    holds the multiplier, and the log as they are.  A second restart
    leaves the state as the first one left it. *)
Theorem restart_resets_table w :
  run restart w =
    (Ok (), mkWorld (mkGame [createPlay 0; createPlay 1; createPlay 2] [] ∅ None 0)
              (observer w) (log w)) ∧
  multiplier (exec restart w) = multiplier w ∧
  exec restart (exec restart w) = exec restart w.
Proof. done. Qed.

End Restart.

(** C9, as stated, fails on the multiplier: after the bidding of
    Scenario A the multiplier is 2, and it is still 2, not 1, after a
    restart. *)
Lemma restart_resets_table_counterexample :
  multiplier bidden = VNum 2 ∧
  fst (run restart bidden) = Ok () ∧
  multiplier (exec restart bidden) = VNum 2.
Proof. split_and!; evaluate. Qed.

(** ** The observer *)




(** The room of [titled] is held under 'room' only. *)
Lemma titled_unaliased val :
  ¬ occursIn (VObj (room_props simulatedRoom)) val →
  unaliased "room" (room_props simulatedRoom) val titled.
Proof.
  intros Hval. split; [exact Hval|]. intros k v Hk Hv.
  assert (Observer.state titled = {["room" := VObj (room_props simulatedRoom)]}) as Hst
    by evaluate.
  rewrite Hst, lookup_singleton_ne in Hv by done. discriminate.
Qed.


(** ** The join response *)

Section Join.

Context `{PM : PlayerModule}.

Lemma run_joinLoop syncInfo p0 p1 p2 info1 info2 : ∀ rest i j info0 w,
  players (game w) = [p0; p1; p2] →
  rest !! j = Some info0 →
  info_uid info0 = uid p0 →
  (∀ k info, (k < j)%nat → rest !! k = Some info → info_uid info ≠ uid p0) →
  syncInfo !! ((i + j + 1) mod 3)%nat = Some info1 →
  syncInfo !! ((i + j + 2) mod 3)%nat = Some info2 →
  run (joinLoop syncInfo i rest) w =
    (Ok (), withPlayers
       [p0;
        updateInfo (info_uid info1) (info_name info1) p1;
        updateInfo (info_uid info2) (info_name info2) p2] w).
Proof.
  induction rest as [|info rest IH]; intros i j info0 w E Hj Hu Hfirst H1 H2;
    [by rewrite lookup_nil in Hj|].
  cbn [joinLoop].
  erewrite (run_bind_Ok (getPlayer 0)); last by (apply (run_getPlayer _ _ p0); rewrite E).
  destruct j as [|j].
  - injection Hj as ->. rewrite decide_True by done.
    rewrite Nat.add_0_r in H1, H2. rewrite H1, H2.
    erewrite (run_bind_Ok (getPlayer 1)); last by (apply (run_getPlayer _ _ p1); rewrite E).
    erewrite (run_bind_Ok (updPlayer 1 _));
      last by (apply (run_updPlayer _ _ _ p1); rewrite E).
    rewrite E.
    erewrite (run_bind_Ok (getPlayer 2)); last by apply (run_getPlayer _ _ p2).
    by erewrite (run_updPlayer _ _ _ p2).
  - rewrite decide_False by (by apply (Hfirst 0%nat); [lia|]).
    apply (IH (S i) j info0); try done.
    + intros k info' Hk. apply (Hfirst (S k)). lia.
    + by replace (S i + j + 1)%nat with (i + S j + 1)%nat by lia.
    + by replace (S i + j + 2)%nat with (i + S j + 2)%nat by lia.
Qed.

Lemma run_showLastThreePoker w :
  length (tablePoker (game w)) = 3%nat →
  run showLastThreePoker w =
    (Ok (), mkWorld
       (mkGame (players (game w)) (tablePoker (game w))
          ((tablePokerPic (game w) ∖ {[55]}) ∪ list_to_set (tablePoker (game w)))
          (lastShotPlayer (game w)) (whoseTurn (game w)))
       (observer w) (log w ++ [Timer 1500 CbDealLastThreePoker])).
Proof.
  intros Hl. unfold showLastThreePoker. rewrite run_bind. cbn [run getGame].
  rewrite decide_False by (by intros []). reflexivity.
Qed.

(** The join response that carries a room, on players [p0], [p1] and
    [p2], the first of which is found at the index [i] of the list of
    the server. *)
Lemma join_seats w r syncInfo i p0 p1 p2 info0 info1 info2 :
  players (game w) = [p0; p1; p2] →
  syncInfo !! i = Some info0 →
  info_uid info0 = uid p0 →
  (∀ k info, (k < i)%nat → syncInfo !! k = Some info → info_uid info ≠ uid p0) →
  syncInfo !! ((i + 1) mod 3)%nat = Some info1 →
  syncInfo !! ((i + 2) mod 3)%nat = Some info2 →
  ∃ w', run (onmessage (RSP_JOIN_ROOM (Some r) syncInfo)) w = (Ok (), w') ∧
        players (game w') =
          [p0;
           updateInfo (info_uid info1) (info_name info1) p1;
           updateInfo (info_uid info2) (info_name info2) p2].
Proof.
  intros E Hi Hu Hfirst H1 H2. cbn [onmessage from_option].
  erewrite (run_bind_Ok (observerSet _ _)); last by apply run_observerSet_plain.
  erewrite (run_bind_Ok (joinLoop _ _ _));
    last by apply (run_joinLoop syncInfo p0 p1 p2 info1 info2 syncInfo 0 i info0).
  destruct (bottom_cards r) as [cards|]; [|by eexists].
  case_decide as Hl; [|by eexists].
  erewrite (run_bind_Ok (setTablePoker _)); last reflexivity.
  case_decide; [|by eexists].
  rewrite run_showLastThreePoker by done. by eexists.
Qed.

(** The seats after a join response that carries a room.  The scene is
    created with the identity of the local player at seat 0; when the
    local player is found (first) at the index [i] of the list of the
    server, seat 0 keeps the local identity, seat 1 receives the
    identity at the index (i+1) mod 3 and seat 2 the one at the index
    (i+2) mod 3. *)
Lemma join_assigns_seats w0 playerInfo r syncInfo i info0 info1 info2 :
  players (game w0) = [] →
  syncInfo !! i = Some info0 →
  info_uid info0 = local_uid playerInfo →
  (∀ k info, (k < i)%nat → syncInfo !! k = Some info →
             info_uid info ≠ local_uid playerInfo) →
  syncInfo !! ((i + 1) mod 3)%nat = Some info1 →
  syncInfo !! ((i + 2) mod 3)%nat = Some info2 →
  let w := exec (create playerInfo) w0 in
  fst (run (onmessage (RSP_JOIN_ROOM (Some r) syncInfo)) w) = Ok () ∧
  players (game (exec (onmessage (RSP_JOIN_ROOM (Some r) syncInfo)) w)) =
    [updateInfo (local_uid playerInfo) (local_name playerInfo) (createPlay 0);
     updateInfo (info_uid info1) (info_name info1) (createPlay 1);
     updateInfo (info_uid info2) (info_name info2) (createPlay 2)].
Proof.
  intros E Hi Hu Hfirst H1 H2 w.
  destruct (join_seats w r syncInfo i
              (updateInfo (local_uid playerInfo) (local_name playerInfo) (createPlay 0))
              (createPlay 1) (createPlay 2) info0 info1 info2)
    as (w' & Hrun & Hps); try done.
  - subst w. unfold exec, create, run. rewrite E. reflexivity.
  - unfold exec. by rewrite Hrun.
Qed.


End Join.

(** The theorem on the simulated join response: the local player is found
    at index 0. *)
Lemma join_assigns_seats_witness :
  players (game world0) = [] ∧
  simulatedPlayers !! 0%nat = Some (mkInfo 1 "local") ∧
  players (game (exec (onmessage (RSP_JOIN_ROOM (Some simulatedRoom) simulatedPlayers))
                   (exec (create (mkLocal 1 "local")) world0))) =
    [mkPlayer 1 "local" [] false; mkPlayer 2 "cpu1" [] false; mkPlayer 3 "cpu2" [] false].
Proof.
  split; [evaluate|]. split; [evaluate|].
  apply (@join_assigns_seats SpecPlayers world0 (mkLocal 1 "local") simulatedRoom
           simulatedPlayers 0 (mkInfo 1 "local") (mkInfo 2 "cpu1") (mkInfo 3 "cpu2"));
    try evaluate.
  intros k info Hk. lia.
Defined.


(** ** The bidding *)

Lemma Observer_set_frame key v o :
  ∃ o', (Observer.set key v o).2 = o' ∧
        (key = "room.multiple" → Observer.get "rob" o' = Observer.get "rob" o).
Proof.
  eexists. split; [reflexivity|]. intros ->.
  unfold Observer.set. rewrite decide_False by done.
  change (split_dot "room.multiple") with ("room", ["multiple"]).
  cbv beta iota.
  destruct (Observer.state o !! "room") as [[]|]; try done.
  unfold Observer.get. cbn. by rewrite lookup_insert_ne.
Qed.

(** [observer.set] leaves the game alone and logs calls of subscribers
    only, whether it returns or throws. *)
Lemma observerSet_frame key v w :
  game (exec (observerSet key v) w) = game w ∧
  (∃ l, log (exec (observerSet key v) w) = (log w ++ l)%list ∧ Forall isNotify l) ∧
  (key = "room.multiple" →
   Observer.get "rob" (observer (exec (observerSet key v) w)) =
     Observer.get "rob" (observer w)).
Proof.
  destruct (observerSet_world key v w) as [made ->].
  destruct (Observer_set_frame key v (observer w)) as (o' & Ho & Hrob).
  cbn [game observer log]. rewrite Ho.
  split; [done|]. split; [|done]. eexists. split; [done|].
  apply Forall_fmap, Forall_forall. by intros [].
Qed.

Section Bid.

Context `{PM : PlayerModule}.

(** One bid that names no landlord. *)
Lemma bid_step w packet b :
  call_landlord packet = -1 →
  b ≠ -1 →
  uidToSeat_from 3 0 (call_uid packet) (players (game w)) = Ok b →
  let w' := exec (onmessage (RSP_CALL_SCORE packet)) w in
  game w' = mkGame (players (game w)) (tablePoker (game w)) (tablePokerPic (game w))
              (lastShotPlayer (game w)) ((b + 1) mod 3) ∧
  Observer.get "rob" (observer w') = VBool (bool_decide ((b + 1) mod 3 = 0)) ∧
  ∃ l, log w' = (log w ++ l)%list ∧ Forall isNotify l.
Proof.
  intros Hl Hb Hs w'. subst w'.
  assert (0 ≤ b < 3 ∧ ∃ p, players (game w) !! Z.to_nat b = Some p) as [Hr [p Hp]].
  { apply uidToSeat_Ok in Hs as [?|[? (p & ? & _)]]; [done|]. eauto. }
  assert (Z.rem (b + 1) 3 = (b + 1) mod 3) as Hrem by (apply Z.rem_mod_nonneg; lia).
  unfold exec. cbn [onmessage].
  rewrite run_bind, run_uidToSeat, Hs.
  rewrite run_bind, run_setWhoseTurn.
  erewrite (run_bind_Ok (getPlayer b));
    last (apply (run_getPlayer _ _ p); apply js_index_Some; split; [lia | exact Hp]).
  erewrite (run_bind_Ok (observerSet _ _)); last by apply run_observerSet_plain.
  cbn zeta. rewrite decide_True by done.
  set (w1 := mkWorld _ _ _).
  rewrite (run_bind (_ ≫= _)), (run_bind (setWhoseTurn _)), run_setWhoseTurn.
  unfold startCallScore. rewrite (run_bind getGame). cbn [run getGame].
  cbn [withWhoseTurn withGame game whoseTurn]. rewrite Hrem.
  case_decide as Hz.
  - rewrite run_observerSet_plain by done. cbn zeta.
    set (w2 := mkWorld _ _ _).
    destruct (observerSet_frame "room.multiple" (call_multiple packet) w2)
      as (Hg & (l & Hlog & Hl') & Hrob).
    unfold exec in *. split; [by rewrite Hg|]. split.
    + rewrite Hrob by done. unfold Observer.get. cbn.
      rewrite lookup_insert_eq. by rewrite bool_decide_true.
    + rewrite Hlog. subst w2 w1. cbn [log withWhoseTurn withGame game observer].
      rewrite <- !app_assoc. eexists. split; [reflexivity|].
      repeat apply Forall_app_2; try done; apply Forall_fmap, Forall_forall; by intros [].
  - cbn [run mret M_ret].
    set (w2 := withWhoseTurn _ w1).
    destruct (observerSet_frame "room.multiple" (call_multiple packet) w2)
      as (Hg & (l & Hlog & Hl') & Hrob).
    unfold exec in *. split; [by rewrite Hg|]. split.
    + rewrite Hrob by done. unfold Observer.get. cbn.
      rewrite lookup_insert_eq. by rewrite bool_decide_false.
    + rewrite Hlog. subst w2 w1. cbn [log withWhoseTurn withGame game observer].
      rewrite <- !app_assoc. eexists. split; [reflexivity|].
      repeat apply Forall_app_2; try done; apply Forall_fmap, Forall_forall; by intros [].
Qed.

Lemma onmessages_snoc ms m w :
  onmessages (ms ++ [m]) w = exec (onmessage m) (onmessages ms w).
Proof. unfold onmessages. by rewrite foldl_snoc. Qed.

(** C8.  Each bid resolution that names no landlord gives the turn to
    (bidding seat + 1) mod 3 and goes on with the bidding: the bid
    buttons are shown exactly when that seat is the local one, the
    hands, the table and the last player are left alone and nothing is
    scheduled or sent.  The scene counts no round: this holds after any
    number of such resolutions in a row. *)
Theorem bid_without_landlord w packets :
  Forall (λ pk, call_landlord pk = -1 ∧
                ∃ b, b ≠ -1 ∧
                     uidToSeat_from 3 0 (call_uid pk) (players (game w)) = Ok b)
         packets →
  let w' := onmessages (RSP_CALL_SCORE <$> packets) w in
  players (game w') = players (game w) ∧
  tablePoker (game w') = tablePoker (game w) ∧
  tablePokerPic (game w') = tablePokerPic (game w) ∧
  lastShotPlayer (game w') = lastShotPlayer (game w) ∧
  (∃ l, log w' = (log w ++ l)%list ∧ Forall isNotify l) ∧
  ∀ pk b,
    last packets = Some pk →
    uidToSeat_from 3 0 (call_uid pk) (players (game w)) = Ok b →
    whoseTurn (game w') = (b + 1) mod 3 ∧
    Observer.get "rob" (observer w') = VBool (bool_decide ((b + 1) mod 3 = 0)).
Proof.
  induction packets as [|pk packets IH] using rev_ind; intros Hall w'; subst w'.
  - cbn. split_and!; try done. exists []. by rewrite app_nil_r.
  - apply Forall_app in Hall as [Hall [[Hl (b & Hb & Hs)] _]%Forall_cons].
    destruct (IH Hall) as (Hps & Ht & Hpic & Hlast & (l & Hlog & Hnot) & _).
    rewrite fmap_app. cbn [fmap list_fmap]. rewrite onmessages_snoc.
    set (w1 := onmessages (RSP_CALL_SCORE <$> packets) w) in *.
    destruct (bid_step w1 pk b Hl Hb) as (Hg & Hrob & (l' & Hlog' & Hnot'));
      [by rewrite Hps|].
    rewrite Hg. cbn [players tablePoker tablePokerPic lastShotPlayer whoseTurn].
    split_and!; try done.
    + exists (l ++ l')%list. rewrite Hlog', Hlog, app_assoc. split; [done|].
      by apply Forall_app_2.
    + intros pk' b' Hpk'. rewrite last_snoc in Hpk'. injection Hpk' as <-.
      rewrite Hs. by intros [= <-].
Qed.

End Bid.

(** The theorem on four resolutions in a row, more than one round of the
    table. *)
Lemma bid_without_landlord_witness :
  let packets := [mkCallScore 1 1 (-1) None (VNum 1); mkCallScore 2 0 (-1) None (VNum 1);
                  mkCallScore 3 0 (-1) None (VNum 1); mkCallScore 1 0 (-1) None (VNum 1)] in
  uidToSeat_from 3 0 1 (players (game dealt)) = Ok 0 ∧
  whoseTurn (game (onmessages (RSP_CALL_SCORE <$> packets) dealt)) = 1 ∧
  players (game (onmessages (RSP_CALL_SCORE <$> packets) dealt)) = players (game dealt).
Proof.
  intros packets. split; [evaluate|].
  destruct (@bid_without_landlord SpecPlayers dealt packets)
    as (Hps & _ & _ & _ & _ & Hlast).
  - repeat constructor; try done; eexists; (split; [|evaluate]); done.
  - split; [|exact Hps].
    by destruct (Hlast (mkCallScore 1 0 (-1) None (VNum 1)) 0) as [-> _]; [evaluate..|].
Defined.

Lemma js_assign_three {A} (c0 c1 c2 : A) (t : list A) :
  (length t ≤ 3)%nat →
  js_assign 2 c2 (js_assign 1 c1 (js_assign 0 c0 t)) = [c0; c1; c2].
Proof.
  intros Hl. destruct t as [|x0 [|x1 [|x2 [|x3 t]]]]; try done. cbn in Hl. lia.
Qed.

Section Landlord.

Context `{PM : PlayerModule}.

Lemma run_dealLastThreePoker w s p c0 c1 c2 :
  whoseTurn (game w) = s →
  js_index (players (game w)) s = Some p →
  tablePoker (game w) = [c0; c1; c2] →
  Forall (λ pid, pid ∈ tablePokerPic (game w)) (tablePoker (game w)) →
  run dealLastThreePoker w =
    (Ok (), mkWorld
       (mkGame
          (<[Z.to_nat s :=
               with_hand (sortPoker (pokerInHand p ++ [Some c0; Some c1; Some c2])) p]>
             (players (game w)))
          [] (tablePokerPic (game w)) (Some (Z.to_nat s)) s)
       (observer w)
       (if decide (s = 0) then log w ++ [PlayPoker []] else log w)%list).
Proof.
  intros Hs E Ht Hpic. pose proof E as [Hs0 El]%js_index_Some.
  pose proof (lookup_lt_Some _ _ _ El) as Hlt.
  unfold dealLastThreePoker. rewrite run_bind. cbn [run getGame].
  rewrite Hs, decide_False by lia.
  rewrite (decide_False (P:=length (tablePoker (game w)) ≠ 3%nat))
    by (rewrite Ht; by intros []).
  cbv zeta.
  erewrite (run_bind_Ok (mapM _ _));
    last by apply (run_mapM_hand (λ pid h, h ++ [Some pid])%list s (tablePoker (game w)) _ p).
  rewrite Ht. cbn [foldl].
  erewrite (run_bind_Ok (updPlayer s _)); last first.
  { apply run_updPlayer. apply js_index_Some. split; [done|]. cbn.
    by apply list_lookup_insert_eq. }
  cbn [withPlayers withGame game players tablePoker tablePokerPic lastShotPlayer
       whoseTurn observer log pokerInHand with_hand].
  rewrite list_insert_insert_eq, <- !app_assoc. cbn [app].
  set (ps := <[Z.to_nat s := _]> (players (game w))).
  assert (run (if decide (s = 0) then mret () else tableSprites)
            (mkWorld (mkGame ps (tablePoker (game w)) (tablePokerPic (game w))
                        (lastShotPlayer (game w)) (whoseTurn (game w)))
               (observer w) (log w)) =
          (Ok (), mkWorld (mkGame ps (tablePoker (game w)) (tablePokerPic (game w))
                             (lastShotPlayer (game w)) (whoseTurn (game w)))
                    (observer w) (log w))) as Hsprites.
  { case_decide; [done|]. by apply run_tableSprites. }
  rewrite (run_bind_Ok _ _ _ _ _ Hsprites).
  erewrite (run_bind_Ok (setTablePoker _)); last reflexivity.
  erewrite (run_bind_Ok (setLastShotPlayer _)); last reflexivity.
  cbn [game players tablePoker tablePokerPic lastShotPlayer whoseTurn observer log].
  case_decide as Hz; [|by rewrite Hs].
  destruct (lookup_lt_is_Some_2 ps 0) as [q Hq];
    [unfold ps; rewrite length_insert; lia|].
  rewrite (run_startPlay _ q) by (by rewrite ?Hs).
  cbn [game lastShotPlayer observer log]. rewrite Hz, Hs, Hz.
  by rewrite bool_decide_true.
Qed.

(** On a table store of at most three entries (it is empty in a first
    round): a bid resolution that names a landlord and carries the
    three bottom cards sets [whoseTurn] to the seat of the landlord,
    puts the bottom cards on the table, flags the landlord and schedules
    the hand-over.  When the timer fires, the hand of the landlord grows
    by exactly these three cards (its identity and the other players
    are as before), the store of bottom cards is emptied and the turn
    is still the landlord's. *)
Theorem bid_names_landlord w packet b s p c0 c1 c2 :
  uidToSeat_from 3 0 (call_uid packet) (players (game w)) = Ok b →
  b ≠ -1 →
  call_landlord packet ≠ -1 →
  uidToSeat_from 3 0 (call_landlord packet) (players (game w)) = Ok s →
  js_index (players (game w)) s = Some p →
  call_pokers packet = Some [c0; c1; c2] →
  (length (tablePoker (game w)) ≤ 3)%nat →
  let w1 := exec (onmessage (RSP_CALL_SCORE packet)) w in
  whoseTurn (game w1) = s ∧
  tablePoker (game w1) = [c0; c1; c2] ∧
  players (game w1) = <[Z.to_nat s := setLandlord p]> (players (game w)) ∧
  Timer 1500 CbDealLastThreePoker ∈ log w1 ∧
  ∃ w2 p',
    run (fire CbDealLastThreePoker) w1 = (Ok (), w2) ∧
    whoseTurn (game w2) = s ∧
    tablePoker (game w2) = [] ∧
    lastShotPlayer (game w2) = Some (Z.to_nat s) ∧
    players (game w2) = <[Z.to_nat s := p']> (players (game w)) ∧
    pokerInHand p' ≡ₚ (pokerInHand p ++ [Some c0; Some c1; Some c2])%list ∧
    length (pokerInHand p') = (length (pokerInHand p) + 3)%nat ∧
    uid p' = uid p ∧ name p' = name p ∧ isLandlord p' = true.
Proof.
  intros Hb Hb1 Hl Hs E Hpk Hlen w1.
  pose proof E as [Hs0 El]%js_index_Some.
  pose proof (lookup_lt_Some _ _ _ El) as Hlt.
  assert (∃ q, players (game w) !! Z.to_nat b = Some q ∧ 0 ≤ b) as (q & Hq & Hb0).
  { apply uidToSeat_Ok in Hb as [?|[? (q & ? & _)]]; [done|]. exists q. split; [done|lia]. }
  (* the world before the multiplier is stored *)
  set (w0 := mkWorld
    (mkGame (<[Z.to_nat s := setLandlord p]> (players (game w))) [c0; c1; c2]
       ((tablePokerPic (game w) ∖ {[55]}) ∪ list_to_set [c0; c1; c2])
       (lastShotPlayer (game w)) s)
    (Observer.mk (<["rob" := VBool false]> (Observer.state (observer w)))
       (Observer.subscribers (observer w)))
    ((log w ++ ((λ c, Notify c.1 c.2) <$>
        Observer.notify "rob"
          (Observer.mk (<["rob" := VBool false]> (Observer.state (observer w)))
             (Observer.subscribers (observer w))))) ++
      [Timer 1500 CbDealLastThreePoker])%list).
  assert (w1 = exec (observerSet "room.multiple" (call_multiple packet)) w0) as Hw1.
  { subst w1. unfold exec at 1. cbn [onmessage].
    rewrite run_bind, run_uidToSeat, Hb.
    rewrite run_bind, run_setWhoseTurn.
    erewrite (run_bind_Ok (getPlayer b));
      last (apply (run_getPlayer _ _ q); apply js_index_Some; split; [lia | exact Hq]).
    erewrite (run_bind_Ok (observerSet _ _)); last by apply run_observerSet_plain.
    cbn zeta. rewrite (decide_False (P:=call_landlord packet = -1)) by done.
    rewrite Hpk.
    set (wa := mkWorld _ _ _).
    assert (run (landlord ← uidToSeat (call_landlord packet);
                 setWhoseTurn landlord;;
                 g ← getGame;
                 setTablePoker
                   (js_assign 2 c2 (js_assign 1 c1 (js_assign 0 c0 (tablePoker g))));;
                 updPlayer landlord setLandlord;;
                 showLastThreePoker) wa = (Ok (), w0)) as Hmid.
    { rewrite run_bind, run_uidToSeat. subst wa.
      cbn [withWhoseTurn withGame game players]. rewrite Hs.
      rewrite run_bind, run_setWhoseTurn, (run_bind getGame). cbn [run getGame].
      cbn [withWhoseTurn withGame game players tablePoker tablePokerPic lastShotPlayer
           whoseTurn observer log].
      rewrite js_assign_three by done.
      erewrite (run_bind_Ok (setTablePoker _)); last reflexivity.
      erewrite (run_bind_Ok (updPlayer s _)); last by apply (run_updPlayer _ _ _ p).
      by rewrite run_showLastThreePoker. }
    by rewrite (run_bind_Ok _ _ _ _ _ Hmid). }
  destruct (observerSet_frame "room.multiple" (call_multiple packet) w0)
    as (Hg & (l & Hlog & _) & _).
  rewrite <- Hw1 in Hg, Hlog.
  rewrite Hg. cbn [w0 game players tablePoker whoseTurn].
  split_and!; try done.
  { rewrite Hlog. cbn [w0 log]. set_solver. }
  cbn [fire].
  erewrite (run_dealLastThreePoker w1 s (setLandlord p) c0 c1 c2); rewrite ?Hg; try done.
  - eexists.
    exists (with_hand (sortPoker (pokerInHand p ++ [Some c0; Some c1; Some c2])%list)
              (setLandlord p)).
    split; [reflexivity|].
    cbn [game players tablePoker lastShotPlayer whoseTurn w0].
    split_and!; try done.
    + by rewrite list_insert_insert_eq.
    + cbn. apply sortPoker_perm.
    + cbn. rewrite sortPoker_perm, length_app. done.
  - apply js_index_Some. split; [done|]. cbn. by apply list_lookup_insert_eq.
  - cbn. repeat constructor; set_solver.
Qed.

End Landlord.

(** Scenario A of the specification: the hand of seat 2 grows by the
    cards 52, 53 and 54. *)
Lemma bid_names_landlord_witness :
  let w := onmessages [RSP_CALL_SCORE (mkCallScore 1 1 (-1) None (VNum 1));
                       RSP_CALL_SCORE (mkCallScore 2 0 (-1) None (VNum 1))] dealt in
  let w1 := exec (onmessage (RSP_CALL_SCORE (mkCallScore 3 1 3 (Some [52; 53; 54]) (VNum 2)))) w in
  uidToSeat_from 3 0 3 (players (game w)) = Ok 2 ∧
  tablePoker (game w) = [] ∧
  whoseTurn (game w1) = 2 ∧
  ∃ w2, run (fire CbDealLastThreePoker) w1 = (Ok (), w2) ∧
        tablePoker (game w2) = [] ∧
        hand 2 (game w2) = (replicate 17 (Some 55) ++ [Some 52; Some 53; Some 54])%list.
Proof.
  intros w w1. split; [evaluate|]. split; [evaluate|].
  destruct (@bid_names_landlord SpecPlayers w
              (mkCallScore 3 1 3 (Some [52; 53; 54]) (VNum 2)) 2 2
              (mkPlayer 3 "cpu2" (replicate 17 (Some 55)) false) 52 53 54)
    as (Ht & _ & _ & _ & w2 & p' & Hrun & _ & Htab & _ & _ & _);
    [evaluate | done | done | evaluate | evaluate | evaluate | vm_compute; lia |].
  split; [exact Ht|]. exists w2. split; [exact Hrun|]. split; [exact Htab|].
  assert (w2 = exec (fire CbDealLastThreePoker) w1) as ->
    by (unfold exec; fold w1 in Hrun; by rewrite Hrun).
  evaluate.
Defined.

(** C4 (the code fails the claim).  No handler empties the table
    between two rounds.  After a round whose last play was the straight 3
    to 7, every handler having returned, the table still holds these
    five cards at the next deal.  The bid resolution that names the
    player 2 landlord with the bottom cards 52, 53 and 54 then writes
    them over the first three entries: the table holds five cards,
    [showLastThreePoker] returns at its guard and schedules no
    hand-over, and the hand-over, were it run, returns at its guard too.
    The landlord is flagged and has the turn, its hand holds the 17
    cards of the deal and not the bottom cards, and the table is not
    emptied. *)
Theorem bid_on_stale_table :
  let packet := mkCallScore 2 1 2 (Some [52; 53; 54]) (VNum 2) in
  let w1 := exec (onmessage (RSP_CALL_SCORE packet)) staleTable in
  (fst (run (onmessage (RSP_SHOT_POKER (mkShot 3 [3; 4; 5; 6; 7] (VNum 2)))) playing) = Ok () ∧
   fst (run (onmessage (RSP_GAME_OVER 3 [])) lastPlay) = Ok () ∧
   fst (run (fire CbGameOver) roundOver) = Ok () ∧
   fst (run (onmessage (RSP_READY 1)) cleaned) = Ok () ∧
   fst (run (onmessage (RSP_DEAL_POKER 1 (seqZ 1 17)))
          (exec (onmessage (RSP_READY 1)) cleaned)) = Ok () ∧
   fst (run (onmessage (RSP_CALL_SCORE packet)) staleTable) = Ok ()) ∧
  tablePoker (game staleTable) = [3; 4; 5; 6; 7] ∧
  whoseTurn (game w1) = 1 ∧
  isLandlord <$> players (game w1) !! 1%nat = Some true ∧
  tablePoker (game w1) = [52; 53; 54; 6; 7] ∧
  scheduled w1 = scheduled staleTable ∧
  run (fire CbDealLastThreePoker) w1 = (Ok (), w1) ∧
  hand 1 (game w1) = replicate 17 (Some 55).
Proof. cbv zeta. split_and!; evaluate. Qed.

(** ** More on the observer *)

Lemma split_dot_fst_plain s : (split_dot (split_dot s).1).2 = [].
Proof.
  induction s as [|c s IH]; [done|]. cbn.
  destruct (split_dot s) as [h t]. cbn in IH.
  destruct (Ascii.eqb c ".") eqn:Ec; [done|]. cbn. rewrite Ec.
  by destruct (split_dot h).
Qed.

Lemma reachable_state_keys o key :
  reachable o → is_Some (Observer.state o !! key) →
  key ≠ "countdown" ∧ (split_dot key).2 = [].
Proof.
  induction 1 as [|o k cb _ IH|o k val _ IH]; intros Hin.
  - by destruct Hin.
  - apply IH. revert Hin. unfold Observer.subscribe.
    case_decide; [done|]. by destruct (Observer.subscribers o !! k).
  - revert Hin. unfold Observer.set. case_decide as Hk; [by apply IH|].
    destruct (split_dot k) as [k0 [|k1 ks]] eqn:Es; cbn.
    + destruct (decide (key = k)) as [->|Hne].
      * intros _. by rewrite Es.
      * rewrite lookup_insert_ne by done. apply IH.
    + destruct (Observer.state o !! k0) as [[| | | | |props]|] eqn:E0; cbn; try apply IH.
      destruct (decide (key = k0)) as [->|Hne].
      * intros _. apply IH. by rewrite E0.
      * rewrite lookup_insert_ne by done. apply IH.
Qed.

Lemma split_dot_plain s : ∀ a, split_dot s = (a, []) → a = s.
Proof.
  induction s as [|c s IH]; intros a; cbn; [by intros [= <-]|].
  destruct (split_dot s) as [h t]. destruct (Ascii.eqb c "."); [done|].
  intros [= <- ->]. f_equal. by apply IH.
Qed.

Lemma reachableOwn_reachable o : reachableOwn o → reachable o.
Proof. induction 1; by constructor. Qed.

(** An own key is no name of [Object.prototype], and neither is its
    first segment. *)
Lemma ownKey_not_prototype key k :
  ownKey key → k ∈ objectPrototype → key ≠ k ∧ (split_dot key).1 ≠ k.
Proof.
  intros [Hhead _]%Forall_cons Hk.
  assert ((split_dot key).1 ≠ k) as Hne by (by intros <-).
  split; [|exact Hne]. intros ->.
  assert (Forall (λ k, (split_dot k).2 = []) objectPrototype) as Hdot
    by (apply (bool_decide_unpack _); vm_compute; exact I).
  apply (proj1 (Forall_forall _ _) Hdot) in Hk.
  destruct (split_dot k) as [h t] eqn:Es. cbn in *. subst t.
  by apply split_dot_plain in Es.
Qed.

(** The calls with own keys keep both dictionaries plain. *)
Lemma reachableOwn_plain o : reachableOwn o → Observer.plain o.
Proof.
  unfold Observer.plain.
  induction 1 as [|o key cb Hkey _ IH|o key val Hkey _ IH];
    apply Forall_forall; intros k Hk.
  - done.
  - destruct (proj1 (Forall_forall _ _) IH k Hk) as [Hst Hsub].
    destruct (ownKey_not_prototype key k Hkey Hk) as [Hne _].
    unfold Observer.subscribe. case_decide; [done|].
    destruct (Observer.subscribers o !! key); cbn; by rewrite lookup_insert_ne.
  - destruct (proj1 (Forall_forall _ _) IH k Hk) as [Hst Hsub].
    destruct (ownKey_not_prototype key k Hkey Hk) as [Hne Hhead].
    unfold Observer.set. case_decide; [done|].
    destruct (split_dot key) as [k0 [|k1 ks]] eqn:Es; cbn in *.
    + by rewrite lookup_insert_ne.
    + destruct (Observer.state o !! k0) as [[| | | | |props]|]; cbn; try done.
      by rewrite lookup_insert_ne.
Qed.

(** X1.  [get] never resolves what [set] refuses or splits: on every
    observer that [subscribe] and [set] can produce by calls whose keys
    name no property of [Object.prototype], [get('countdown')] and [get]
    of a key with a dot are [undefined]. *)
Theorem get_countdown_or_dotted o key :
  reachableOwn o →
  key = "countdown" ∨ (split_dot key).2 ≠ [] →
  Observer.get key o = VUndefined.
Proof.
  intros Hr%reachableOwn_reachable Hk. unfold Observer.get.
  destruct (Observer.state o !! key) as [v|] eqn:E; [|done].
  destruct (reachable_state_keys o key Hr) as [H1 H2]; [by rewrite E|].
  by destruct Hk.
Qed.

Lemma titled_reachableOwn : reachableOwn titled.
Proof.
  unfold titled. apply reachableOwn_subscribe; [decided|].
  apply reachableOwn_subscribe; [decided|].
  apply reachableOwn_set; [decided | constructor].
Qed.

Lemma get_countdown_or_dotted_witness :
  reachableOwn titled ∧
  Observer.get "room.multiple" (Observer.set "room.multiple" (VNum 2) titled).2 = VUndefined.
Proof.
  split; [exact titled_reachableOwn|].
  apply get_countdown_or_dotted; [|right; discriminate].
  apply reachableOwn_set; [decided | exact titled_reachableOwn].
Defined.

(** X2.  Round trip of the observer, for a key other than 'countdown'
    whose segments name no property of [Object.prototype], on an
    observer whose dictionaries are plain.  After [set(key, v)] for a
    key without dot, [get(key)] is [v]; after [set('a.b', v)] on an
    object held under [a] and nowhere else, [get(a)] is that object with
    the field [b] set to [v].  In both cases the values of all other
    keys and the subscribers are as before. *)
Theorem observer_get_set o key v :
  key ≠ "countdown" →
  ownKey key →
  Observer.plain o →
  ((split_dot key).2 = [] →
     let o' := (Observer.set key v o).2 in
     Observer.get key o' = v ∧
     (∀ key', key' ≠ key → Observer.get key' o' = Observer.get key' o) ∧
     Observer.subscribers o' = Observer.subscribers o) ∧
  (∀ a b rest props,
     split_dot key = (a, b :: rest) →
     Observer.state o !! a = Some (VObj props) →
     unaliased a props v o →
     let o' := (Observer.set key v o).2 in
     Observer.get a o' = VObj (<[b := v]> props) ∧
     (∀ key', key' ≠ a → Observer.get key' o' = Observer.get key' o) ∧
     Observer.subscribers o' = Observer.subscribers o).
Proof.
  intros Hk _ _. split.
  - intros Hs o'. subst o'. rewrite Observer_set_plain by done.
    unfold Observer.get. cbn. split_and!; try done.
    + by rewrite lookup_insert_eq.
    + intros key' Hne. by rewrite lookup_insert_ne.
  - intros a b rest props Hs Ha _ o'. subst o'. unfold Observer.set.
    rewrite decide_False by done. rewrite Hs, Ha.
    unfold Observer.get. cbn. split_and!; try done.
    + by rewrite lookup_insert_eq.
    + intros key' Hne. by rewrite lookup_insert_ne.
Qed.

Lemma observer_get_set_witness :
  "ready" ≠ "countdown" ∧
  Observer.get "ready" (Observer.set "ready" (VBool true) titled).2 = VBool true ∧
  Observer.get "room" (Observer.set "ready" (VBool true) titled).2 = Observer.get "room" titled ∧
  Observer.get "room" (Observer.set "room.multiple" (VNum 2) titled).2 =
    VObj (<["multiple" := VNum 2]> (room_props simulatedRoom)).
Proof.
  split; [discriminate|].
  destruct (observer_get_set titled "ready" (VBool true)) as [Hplain _];
    [discriminate | decided | decided |].
  destruct (Hplain eq_refl) as (Hget & Hframe & _).
  split; [exact Hget|]. split; [apply Hframe; discriminate|].
  destruct (observer_get_set titled "room.multiple" (VNum 2)) as [_ Hdot];
    [discriminate | decided | decided |].
  destruct (Hdot "room" "multiple" [] (room_props simulatedRoom)) as (Hget' & _);
    [evaluate | evaluate | | exact Hget'].
  apply titled_unaliased. intros H. inversion H.
Defined.







(** ** More on the scene *)

Lemma uidToSeat_from_first n : ∀ i u ps s,
  uidToSeat_from n i u ps = Ok s → s ≠ -1 →
  ∀ j q, (i ≤ j < Z.to_nat s)%nat → ps !! j = Some q → uid q ≠ u.
Proof.
  induction n as [|n IH]; intros i u ps s; cbn; [by intros [= <-]|].
  destruct (ps !! i) as [p|] eqn:Ep; [|done].
  case_decide as Eu.
  - intros [= <-] _ j q Hj. rewrite Nat2Z.id in Hj. lia.
  - intros Hs Hne j q Hj Hq.
    destruct (decide (j = i)) as [->|Hji]; [by rewrite Ep in Hq; injection Hq as <-|].
    apply (IH (S i) u ps s Hs Hne j q); [lia | done].
Qed.

Lemma uidToSeat_from_missing n : ∀ i u ps,
  uidToSeat_from n i u ps = Ok (-1) →
  ∀ j q, (i ≤ j < i + n)%nat → ps !! j = Some q → uid q ≠ u.
Proof.
  induction n as [|n IH]; intros i u ps; cbn; [lia|].
  destruct (ps !! i) as [p|] eqn:Ep; [|done].
  case_decide as Eu; [intros [=]; lia|].
  intros Hs j q Hj Hq.
  destruct (decide (j = i)) as [->|Hji]; [by rewrite Ep in Hq; injection Hq as <-|].
  apply (IH (S i) u ps Hs j q); [lia | done].
Qed.

(** X5.  With the three players in place, [uidToSeat] never throws: it
    returns the first seat, among 0, 1 and 2, whose player has the uid,
    and -1 exactly when no player has it. *)
Theorem uidToSeat_first_seat u ps :
  length ps = 3%nat →
  ∃ s, uidToSeat_from 3 0 u ps = Ok s ∧
       ((s = -1 ∧ ∀ q, q ∈ ps → uid q ≠ u) ∨
        (0 ≤ s < 3 ∧
         (∃ p, ps !! Z.to_nat s = Some p ∧ uid p = u) ∧
         ∀ j q, (j < Z.to_nat s)%nat → ps !! j = Some q → uid q ≠ u)).
Proof.
  intros Hl. destruct (uidToSeat_from_total 3 0 u ps) as [s Hs]; [lia|].
  exists s. split; [done|].
  destruct (decide (s = -1)) as [->|Hne].
  - left. split; [done|]. intros q [j Hj]%list_elem_of_lookup.
    apply (uidToSeat_from_missing 3 0 u ps Hs j q); [|done].
    apply lookup_lt_Some in Hj. lia.
  - right. destruct (uidToSeat_Ok u ps s Hs) as [?|[Hr (p & Hp & ->)]]; [done|].
    split; [done|]. split; [by exists p|].
    intros j q Hj. apply (uidToSeat_from_first 3 0 (uid p) ps s Hs Hne j q). lia.
Qed.

Lemma uidToSeat_first_seat_witness :
  length (players (game joined)) = 3%nat ∧
  ∃ s, uidToSeat_from 3 0 9 (players (game joined)) = Ok s ∧ s = -1.
Proof.
  split; [evaluate|].
  destruct (uidToSeat_first_seat 9 (players (game joined))) as (s & Hs & Hcase); [evaluate|].
  exists s. split; [exact Hs|].
  destruct Hcase as [[-> _]|(_ & (p & Hp & Hu) & _)]; [done|].
  exfalso. apply list_elem_of_lookup_2, list_elem_of_In in Hp.
  vm_compute in Hp. destruct Hp as [<-|[<-|[<-|[]]]]; discriminate.
Defined.

Section Scene.

Context `{PM : PlayerModule}.

Lemma run_startPlay_any w :
  run startPlay w =
    (Ok (),
     if decide (0 ≤ whoseTurn (game w) < Z.of_nat (length (players (game w)))) then
       mkWorld (game w) (observer w)
         (log w ++
            [PlayPoker
               (if bool_decide (lastShotPlayer (game w) = Some (Z.to_nat (whoseTurn (game w))))
                then [] else tablePoker (game w))])
     else w).
Proof.
  unfold startPlay. rewrite run_bind. cbn [run getGame].
  case_decide as Hout.
  - rewrite decide_False by lia. reflexivity.
  - rewrite decide_True by lia.
    destruct (lookup_lt_is_Some_2 (players (game w)) (Z.to_nat (whoseTurn (game w))))
      as [p Hp]; [lia|].
    unfold isLastShotPlayer. rewrite !run_bind. cbn [run getGame].
    erewrite (run_bind_Ok (getPlayer _));
      last (apply (run_getPlayer _ _ p); apply js_index_Some; split; [lia | exact Hp]).
    cbn [run mret M_ret]. case_bool_decide; reflexivity.
Qed.

(** X6.  [startPlay] never throws and never changes the game or the
    observer.  With [whoseTurn] at a seat of the table it prompts the
    local player once, whichever seat that is: with no card to beat when
    the player at [whoseTurn] is the last one who played, with the cards
    on the table otherwise.  With [whoseTurn] off the table (-1 after an
    unknown uid) it does nothing. *)
Theorem startPlay_prompts w :
  ∃ w', run startPlay w = (Ok (), w') ∧
        game w' = game w ∧ observer w' = observer w ∧
        (0 ≤ whoseTurn (game w) < Z.of_nat (length (players (game w))) →
         log w' =
           (log w ++
              [PlayPoker
                 (if bool_decide (lastShotPlayer (game w) = Some (Z.to_nat (whoseTurn (game w))))
                  then [] else tablePoker (game w))])%list) ∧
        (¬ (0 ≤ whoseTurn (game w) < Z.of_nat (length (players (game w)))) → w' = w).
Proof.
  eexists. split; [apply run_startPlay_any|].
  case_decide; split_and!; try done.
Qed.

(** X7.  A ready or deal message that names another player than the
    local one is ignored: the handler returns and the world is as
    before.  Before the players exist, both handlers throw. *)
Theorem messages_for_others_ignored w u pokers :
  (∀ p0, players (game w) !! 0%nat = Some p0 → u ≠ uid p0 →
     run (onmessage (RSP_READY u)) w = (Ok (), w) ∧
     run (onmessage (RSP_DEAL_POKER u pokers)) w = (Ok (), w)) ∧
  (players (game w) = [] →
     run (onmessage (RSP_READY u)) w = (Throw, w) ∧
     run (onmessage (RSP_DEAL_POKER u pokers)) w = (Throw, w)).
Proof.
  split.
  - intros p0 Hp0 Hu. cbn [onmessage].
    rewrite !(run_bind_Ok _ _ _ _ _ (run_getPlayer w 0 p0 Hp0)).
    by rewrite !decide_False by done.
  - intros Hnil. cbn [onmessage].
    by rewrite !(run_bind_Throw _ _ _ _ (run_getPlayer_None w 0 ltac:(by rewrite Hnil))).
Qed.

(** The handler of the turn notification. *)
Lemma run_onmessage_turn w u pokers s :
  uidToSeat_from 3 0 u (players (game w)) = Ok s →
  run (onmessage (RSP_TURN_PLAYER u pokers)) w =
    (Ok (),
     mkWorld
       (mkGame (players (game w)) (default [] pokers) (tablePokerPic (game w))
          (lastShotPlayer (game w)) s)
       (observer w)
       (if decide (s = 0) then
          log w ++ [PlayPoker (if bool_decide (lastShotPlayer (game w) = Some 0%nat)
                               then [] else default [] pokers)]
        else log w)%list).
Proof.
  intros Hs. cbn [onmessage].
  rewrite run_bind, run_uidToSeat, Hs, run_bind, run_setWhoseTurn.
  erewrite (run_bind_Ok (setTablePoker _)); last reflexivity.
  case_decide as Hz; [|reflexivity]. subst s.
  rewrite run_startPlay_any.
  cbn [game players whoseTurn tablePoker lastShotPlayer observer log
       withWhoseTurn withGame].
  rewrite decide_True; [reflexivity|].
  apply uidToSeat_Ok in Hs as [?|[_ (p & Hp & _)]]; [done|].
  apply lookup_lt_Some in Hp. lia.
Qed.

(** X8.  A turn notification sets [whoseTurn] to the seat of the uid,
    -1 for a uid that is not at the table, and replaces the cards on the
    table by those of the packet, by none when the packet has none; the
    sprites, the last player and the hands are as before.  With the
    three players in place it returns, and it prompts the local player
    exactly when the seat is 0. *)
Theorem turn_notification w u pokers :
  length (players (game w)) = 3%nat →
  ∃ s,
    uidToSeat_from 3 0 u (players (game w)) = Ok s ∧
    run (onmessage (RSP_TURN_PLAYER u pokers)) w =
      (Ok (),
       mkWorld
         (mkGame (players (game w)) (default [] pokers) (tablePokerPic (game w))
            (lastShotPlayer (game w)) s)
         (observer w)
         (if decide (s = 0) then
            log w ++ [PlayPoker (if bool_decide (lastShotPlayer (game w) = Some 0%nat)
                                 then [] else default [] pokers)]
          else log w)%list).
Proof.
  intros Hl. destruct (uidToSeat_from_total 3 0 u (players (game w))) as [s Hs]; [lia|].
  exists s. split; [exact Hs | by apply run_onmessage_turn].
Qed.

(** X9.  The join request carries the base score given to [init]: after
    [init(baseScore)], [onopen] sends the request for the list of rooms
    and then the request to join any room (-1) at the level
    [baseScore], and nothing else. *)
Theorem join_request_carries_base_score w baseScore :
  let w1 := exec (init baseScore) w in
  run onopen w1 =
    (Ok (), mkWorld (game w1) (observer w1)
       (log w1 ++ [Send REQ_ROOM_LIST; Send (REQ_JOIN_ROOM (-1) baseScore)])).
Proof.
  intros w1. subst w1. unfold init.
  destruct (observerSet_world "baseScore" baseScore w) as [made ->].
  rewrite Observer_set_plain by done. cbn zeta. cbn [snd].
  unfold onopen, run, emit, mbind, M_bind. cbn [game observer log].
  unfold Observer.get. cbn [Observer.state]. rewrite lookup_insert_eq. cbn [default].
  by rewrite <- !app_assoc.
Qed.

(** X10.  A bid resolution or a play with a uid that is not at the table
    throws after [whoseTurn] has been set to -1; everything else,
    including the multiplier of the packet, is left as it was. *)
Theorem unknown_uid_throws w bid shot :
  (uidToSeat_from 3 0 (call_uid bid) (players (game w)) = Ok (-1) →
   run (onmessage (RSP_CALL_SCORE bid)) w = (Throw, withWhoseTurn (-1) w)) ∧
  (uidToSeat_from 3 0 (shot_uid shot) (players (game w)) = Ok (-1) →
   run (onmessage (RSP_SHOT_POKER shot)) w = (Throw, withWhoseTurn (-1) w)).
Proof.
  split; intros Hs; cbn [onmessage].
  - rewrite run_bind, run_uidToSeat, Hs, run_bind, run_setWhoseTurn.
    by erewrite (run_bind_Throw (getPlayer _)); last by apply run_getPlayer_None.
  - by erewrite (run_bind_Throw (handleShotPoker _));
      last by apply (run_handleShotPoker_unknown _ _ (-1)).
Qed.

End Scene.

Section HandOver.

Context `{PM : PlayerModule}.

Lemma run_dealLastThreePoker_guard w :
  ¬ (0 ≤ whoseTurn (game w) < Z.of_nat (length (players (game w)))) ∨
  length (tablePoker (game w)) ≠ 3%nat →
  run dealLastThreePoker w = (Ok (), w).
Proof.
  intros Hg. unfold dealLastThreePoker. rewrite run_bind. cbn [run getGame].
  case_decide; [reflexivity|]. case_decide; [reflexivity|].
  destruct Hg; [lia | done].
Qed.

(** The hand-over up to the use of the sprites. *)
Lemma run_dealLastThreePoker_hand w s p c0 c1 c2 :
  whoseTurn (game w) = s →
  js_index (players (game w)) s = Some p →
  tablePoker (game w) = [c0; c1; c2] →
  let ps := <[Z.to_nat s :=
                with_hand (sortPoker (pokerInHand p ++ [Some c0; Some c1; Some c2])) p]>
              (players (game w)) in
  run dealLastThreePoker w =
    if decide (s = 0 ∨ Forall (λ pid, pid ∈ tablePokerPic (game w)) (tablePoker (game w)))
    then
      (Ok (), mkWorld (mkGame ps [] (tablePokerPic (game w)) (Some (Z.to_nat s)) s)
                (observer w)
                (if decide (s = 0) then log w ++ [PlayPoker []] else log w)%list)
    else (Throw, withPlayers ps w).
Proof.
  intros Hs E Ht ps. pose proof E as [Hs0 El]%js_index_Some.
  pose proof (lookup_lt_Some _ _ _ El) as Hlt.
  unfold dealLastThreePoker. rewrite run_bind. cbn [run getGame].
  rewrite Hs, decide_False by lia.
  rewrite (decide_False (P:=length (tablePoker (game w)) ≠ 3%nat))
    by (rewrite Ht; by intros []).
  cbv zeta.
  erewrite (run_bind_Ok (mapM _ _));
    last by apply (run_mapM_hand (λ pid h, h ++ [Some pid])%list s (tablePoker (game w)) _ p).
  rewrite Ht. cbn [foldl].
  erewrite (run_bind_Ok (updPlayer s _)); last first.
  { apply run_updPlayer. apply js_index_Some. split; [done|]. cbn.
    by apply list_lookup_insert_eq. }
  cbn [withPlayers withGame game players tablePoker tablePokerPic lastShotPlayer
       whoseTurn observer log pokerInHand with_hand].
  rewrite list_insert_insert_eq, <- !app_assoc. cbn [app].
  assert (∀ h h', with_hand h (with_hand h' p) = with_hand h p) as -> by done.
  fold ps. unfold withPlayers, withGame.
  cbn [game players tablePoker tablePokerPic lastShotPlayer whoseTurn observer log].
  destruct (decide (s = 0)) as [Hz|Hz].
  - rewrite decide_True by (by left).
    rewrite (run_bind (mret ())). cbn [run mret M_ret].
    erewrite (run_bind_Ok (setTablePoker _)); last reflexivity.
    erewrite (run_bind_Ok (setLastShotPlayer _)); last reflexivity.
    rewrite run_startPlay_any.
    cbn [game players tablePoker tablePokerPic lastShotPlayer whoseTurn observer log].
    rewrite Hs, decide_True by (unfold ps; rewrite length_insert; lia).
    by rewrite bool_decide_true.
  - destruct (decide (Forall (λ pid, pid ∈ tablePokerPic (game w)) [c0; c1; c2]))
      as [Hpic|Hpic].
    + rewrite decide_True by (by right).
      erewrite (run_bind_Ok tableSprites); last by (apply run_tableSprites; cbn; rewrite Ht).
      erewrite (run_bind_Ok (setTablePoker _)); last reflexivity.
      erewrite (run_bind_Ok (setLastShotPlayer _)); last reflexivity.
      cbn [game players tablePoker tablePokerPic lastShotPlayer whoseTurn observer log].
      by rewrite Hs.
    + rewrite decide_False by (intros [?|?]; done).
      by erewrite (run_bind_Throw tableSprites);
        last by (apply run_tableSprites_Throw; cbn; rewrite Ht).
Qed.

(** X11.  The bottom cards are handed over at most once: the callback of
    the timer does nothing unless [whoseTurn] is a seat of the table and
    the table holds exactly three cards, and a hand-over that returns
    leaves the table empty, so that the callback, run again, returns
    without changing anything. *)
Theorem hand_over_once w w1 :
  run dealLastThreePoker w = (Ok (), w1) →
  run dealLastThreePoker w1 = (Ok (), w1) ∧
  (w1 = w ∨ tablePoker (game w1) = []).
Proof.
  intros Hrun.
  destruct (decide (0 ≤ whoseTurn (game w) < Z.of_nat (length (players (game w)))))
    as [Hin|Hout].
  2:{ rewrite run_dealLastThreePoker_guard in Hrun by (by left).
      injection Hrun as <-. split; [|by left].
      by apply run_dealLastThreePoker_guard; left. }
  destruct (decide (length (tablePoker (game w)) = 3%nat)) as [H3|H3].
  2:{ rewrite run_dealLastThreePoker_guard in Hrun by (by right).
      injection Hrun as <-. split; [|by left].
      by apply run_dealLastThreePoker_guard; right. }
  destruct (tablePoker (game w)) as [|c0 [|c1 [|c2 [|c3 t]]]] eqn:Ht; try done.
  destruct (lookup_lt_is_Some_2 (players (game w)) (Z.to_nat (whoseTurn (game w))))
    as [p Hp]; [lia|].
  rewrite (run_dealLastThreePoker_hand w _ p c0 c1 c2 eq_refl) in Hrun;
    [|apply js_index_Some; split; [lia|done] | done].
  case_decide; [|done]. injection Hrun as <-.
  split; [|by right]. by apply run_dealLastThreePoker_guard; right.
Qed.

End HandOver.

Lemma hand_over_once_witness :
  fst (run dealLastThreePoker bidden) = Ok () ∧
  hand 2 (game (exec dealLastThreePoker (exec dealLastThreePoker bidden))) =
    (replicate 17 (Some 55) ++ [Some 52; Some 53; Some 54])%list.
Proof.
  split; [evaluate|].
  destruct (@hand_over_once SpecPlayers bidden (exec dealLastThreePoker bidden))
    as [Hagain _]; [evaluate|].
  unfold exec at 1. rewrite Hagain. evaluate.
Defined.

Section GameOver.

Context `{PM : PlayerModule}.

Lemma uid_identity (ps ps' : list Player) :
  identity <$> ps = identity <$> ps' → uid <$> ps = uid <$> ps'.
Proof.
  intros E.
  assert (∀ l : list Player, uid <$> l = (λ x, x.1.1) <$> (identity <$> l)) as Hc
    by (intros l; by rewrite <- list_fmap_compose).
  by rewrite !Hc, E.
Qed.

Lemma run_revealHands_frame hands : ∀ w,
  length (players (game w)) = 3%nat →
  ∃ ps, run (revealHands hands) w = (Ok (), withPlayers ps w) ∧
        ps !! 0%nat = players (game w) !! 0%nat ∧
        identity <$> ps = identity <$> players (game w) ∧
        (∀ j q, players (game w) !! j = Some q → uid q ∉ hands.*1 → ps !! j = Some q) ∧
        (NoDup hands.*1 →
         ∀ u pokers j q,
           (u, pokers) ∈ hands →
           uidToSeat_from 3 0 u (players (game w)) = Ok j → 0 < j →
           players (game w) !! Z.to_nat j = Some q →
           ps !! Z.to_nat j = Some (with_hand (replacePoker pokers (pokerInHand q)) q)).
Proof.
  induction hands as [|[u0 pokers0] hands IH]; intros w Hl.
  - exists (players (game w)). rewrite withPlayers_id. split_and!; try done.
    by intros _ u pokers j q Hin%elem_of_nil.
  - cbn [revealHands]. rewrite run_bind, run_uidToSeat.
    destruct (uidToSeat_from_total 3 0 u0 (players (game w))) as [seat Hseat]; [lia|].
    rewrite Hseat, run_bind. case_decide as Hpos.
    + pose proof Hseat as Hseat0.
      apply uidToSeat_Ok in Hseat as [->|[Hr (p & Hp & ->)]]; [lia|].
      rewrite (run_updPlayer _ _ _ p) by (apply js_index_Some; split; [lia|done]).
      set (p' := with_hand (replacePoker pokers0 (pokerInHand p)) p).
      set (ps1 := <[Z.to_nat seat := p']> (players (game w))).
      assert (identity <$> ps1 = identity <$> players (game w)) as Hid1.
      { unfold ps1. rewrite list_fmap_insert. apply list_insert_id.
        by rewrite list_lookup_fmap, Hp. }
      destruct (IH (withPlayers ps1 w)) as (ps & Hrun & H0 & Hid & Hkeep & Hrev).
      { cbn. unfold ps1. by rewrite length_insert. }
      cbn [withPlayers withGame game players] in H0, Hid, Hkeep, Hrev.
      exists ps. split_and!.
      * by rewrite Hrun.
      * rewrite H0. unfold ps1. apply list_lookup_insert_ne. lia.
      * by rewrite Hid.
      * intros j q Hq Hnot. apply Hkeep.
        -- unfold ps1. rewrite list_lookup_insert_ne; [done|].
           intros <-. rewrite Hp in Hq. injection Hq as <-.
           apply Hnot. cbn. left.
        -- intros Hin. apply Hnot. cbn. by right.
      * intros [Hfresh Hnodup]%NoDup_cons u pokers j q Hin Hj Hjpos Hq.
        apply elem_of_cons in Hin as [[= -> ->]|Hin].
        -- rewrite Hseat0 in Hj. injection Hj as <-.
           rewrite Hp in Hq. injection Hq as <-.
           apply Hkeep; [|done].
           unfold ps1. apply list_lookup_insert_eq. by eapply lookup_lt_Some.
        -- assert (u ≠ uid p) as Hne.
           { intros ->. apply Hfresh. apply list_elem_of_fmap. by exists (uid p, pokers). }
           assert (uid q = u) as Hu.
           { apply uidToSeat_Ok in Hj as [->|[_ (q' & Hq' & ->)]]; [lia|].
             rewrite Hq in Hq'. by injection Hq' as <-. }
           apply (Hrev Hnodup u pokers j q Hin); [|done|].
           ++ rewrite <- Hj. by apply uidToSeat_from_uids, uid_identity.
           ++ unfold ps1. rewrite list_lookup_insert_ne; [done|].
              intros Heq. rewrite <- Heq, Hp in Hq. injection Hq as <-. by apply Hne.
    + destruct (IH w Hl) as (ps & Hrun & H0 & Hid & Hkeep & Hrev).
      exists ps. split_and!; try done.
      * intros j q Hq Hnot. apply Hkeep; [done|].
        intros Hin. apply Hnot. cbn. by right.
      * intros [Hfresh Hnodup]%NoDup_cons u pokers j q Hin Hj Hjpos Hq.
        apply elem_of_cons in Hin as [[= -> ->]|Hin].
        -- rewrite Hseat in Hj. injection Hj as <-. lia.
        -- by apply (Hrev Hnodup u pokers j q).
Qed.

(** X12.  The game-over message reveals the hands of the other seats
    only.  With the three players in place it always returns;
    [whoseTurn] becomes the seat that [uidToSeat] gives for the winner
    and the game-over callback is scheduled.  When the message lists no
    uid twice, each player of seat 1 or 2 that it lists has its hand
    replaced by [replacePoker] of the cards listed for it.  The player
    of seat 0 is left as it is whatever the message lists for its uid,
    every player keeps its identity, a player whose uid the message does
    not list keeps its hand, and the table, the last player and the
    observer are left alone. *)
Theorem game_over_reveals_others w winner hands :
  length (players (game w)) = 3%nat →
  ∃ ps s,
    uidToSeat_from 3 0 winner (players (game w)) = Ok s ∧
    run (onmessage (RSP_GAME_OVER winner hands)) w =
      (Ok (), mkWorld (mkGame ps (tablePoker (game w)) (tablePokerPic (game w))
                         (lastShotPlayer (game w)) s)
                (observer w) (log w ++ [Timer 2000 CbGameOver])) ∧
    (NoDup hands.*1 →
     ∀ u pokers j q,
       (u, pokers) ∈ hands →
       uidToSeat_from 3 0 u (players (game w)) = Ok j → 0 < j →
       players (game w) !! Z.to_nat j = Some q →
       ps !! Z.to_nat j = Some (with_hand (replacePoker pokers (pokerInHand q)) q)) ∧
    ps !! 0%nat = players (game w) !! 0%nat ∧
    identity <$> ps = identity <$> players (game w) ∧
    ∀ j q, players (game w) !! j = Some q → uid q ∉ hands.*1 → ps !! j = Some q.
Proof.
  intros Hl.
  destruct (run_revealHands_frame hands w Hl) as (ps & Hrun & H0 & Hid & Hkeep & Hrev).
  destruct (uidToSeat_from_total 3 0 winner (players (game w))) as [s Hs]; [lia|].
  exists ps, s. split; [exact Hs|]. split; [|done].
  cbn [onmessage]. erewrite run_bind_Ok by exact Hrun.
  rewrite run_bind, run_uidToSeat. cbn [withPlayers withGame game players].
  by rewrite (uidToSeat_from_uids 3 0 winner ps (players (game w)) (uid_identity _ _ Hid)), Hs.
Qed.

(** X13.  The callback of the end of the round: when [whoseTurn] is no
    seat of the table (the winner named by the server was unknown) it
    throws at once, with no alert and 'ready' as it was.  Otherwise it
    alerts with the landlord flag of the player of that seat, sets
    'ready' to false and has every hand cleaned; the cards on the table,
    the last player, the turn and the identities stay, and it throws at
    the end exactly when a card on the table has no sprite. *)
Theorem game_over_callback w :
  (js_index (players (game w)) (whoseTurn (game w)) = None →
   run (fire CbGameOver) w = (Throw, w)) ∧
  (∀ p, js_index (players (game w)) (whoseTurn (game w)) = Some p →
     let o' := Observer.mk (<["ready" := VBool false]> (Observer.state (observer w)))
                 (Observer.subscribers (observer w)) in
     run (fire CbGameOver) w =
       (if decide (Forall (λ pid, pid ∈ tablePokerPic (game w)) (tablePoker (game w)))
        then Ok () else Throw,
        mkWorld
          (mkGame ((λ q, with_hand (cleanPokers (pokerInHand q)) q) <$> players (game w))
             (tablePoker (game w)) (tablePokerPic (game w))
             (lastShotPlayer (game w)) (whoseTurn (game w)))
          o'
          (log w ++
             Alert (isLandlord p) ::
             ((λ c, Notify c.1 c.2) <$>
                callsOf (default [] (Observer.subscribers (observer w) !! "ready"))
                  (VBool false)))%list)).
Proof.
  split.
  - intros E. cbn [fire]. unfold gameOver. rewrite run_bind. cbn [run getGame].
    by rewrite (run_bind_Throw _ _ _ _ (run_getPlayer_None _ _ E)).
  - intros p E o'. cbn [fire]. unfold gameOver. rewrite run_bind. cbn [run getGame].
    rewrite (run_bind_Ok _ _ _ _ _ (run_getPlayer _ _ _ E)).
    erewrite (run_bind_Ok (emit _)); last reflexivity.
    erewrite (run_bind_Ok (observerSet _ _));
      last by apply run_observerSet_plain.
    cbn zeta. cbn [game observer log].
    unfold cleanWorld. rewrite run_bind. cbn [run getGame game].
    erewrite (run_bind_Ok (setPlayers _)); last reflexivity.
    cbn [game players tablePoker tablePokerPic lastShotPlayer whoseTurn observer log].
    assert (Observer.notify "ready" o' =
            callsOf (default [] (Observer.subscribers (observer w) !! "ready"))
              (VBool false)) as Hn.
    { unfold Observer.notify, Observer.get, callsOf, o'. cbn.
      rewrite lookup_insert_eq. by destruct (_ !! "ready"). }
    fold o'. rewrite Hn, <- app_assoc. cbn [app].
    case_decide.
    + by rewrite run_tableSprites.
    + by rewrite run_tableSprites_Throw.
Qed.

End GameOver.

(** The player 2, of seat 1, wins; the message lists the hands of the
    players 1 and 2: the hand of seat 1 is replaced, the hand of the
    local seat is not. *)
Lemma game_over_reveals_others_witness :
  ∃ ps,
    run (onmessage (RSP_GAME_OVER 2 [(1, [7]); (2, [8; 9])])) answered =
      (Ok (), mkWorld (mkGame ps (tablePoker (game answered)) (tablePokerPic (game answered))
                         (lastShotPlayer (game answered)) 1)
                (observer answered) (log answered ++ [Timer 2000 CbGameOver])) ∧
    pokerInHand <$> ps !! 1%nat = Some [Some 8; Some 9] ∧
    ps !! 0%nat = players (game answered) !! 0%nat.
Proof.
  assert (NoDup [(1, [7]); (2, [8; 9])].*1) as Hnodup
    by (apply (bool_decide_unpack _); vm_compute; exact I).
  assert ((2, [8; 9]) ∈ [(1, [7]); (2, [8; 9])]) as Hin
    by (apply elem_of_cons; right; apply elem_of_cons; by left).
  assert (uidToSeat_from 3 0 2 (players (game answered)) = Ok 1) as Hseat by evaluate.
  assert (∃ q, players (game answered) !! Z.to_nat 1 = Some q) as [q Hq]
    by (eexists; evaluate).
  destruct (@game_over_reveals_others SpecPlayers answered 2 [(1, [7]); (2, [8; 9])])
    as (ps & s & Hs & Hrun & Hrev & H0 & _); [evaluate|].
  rewrite Hseat in Hs. injection Hs as <-.
  exists ps. split; [exact Hrun|]. split; [|exact H0].
  change (ps !! 1%nat) with (ps !! Z.to_nat 1).
  rewrite (Hrev Hnodup 2 [8; 9] 1 q Hin Hseat ltac:(lia) Hq). reflexivity.
Defined.

Lemma game_over_callback_witness :
  run (fire CbGameOver) (withWhoseTurn (-1) answered) = (Throw, withWhoseTurn (-1) answered) ∧
  fst (run (fire CbGameOver) answered) = Ok () ∧
  Observer.get "ready" (observer (exec (fire CbGameOver) answered)) = VBool false ∧
  tablePoker (game (exec (fire CbGameOver) answered)) = tablePoker (game answered).
Proof.
  destruct (@game_over_callback SpecPlayers (withWhoseTurn (-1) answered)) as [Hthrow _].
  destruct (@game_over_callback SpecPlayers answered) as [_ Hrun].
  split; [apply Hthrow; evaluate|].
  unfold exec.
  erewrite Hrun by evaluate.
  split_and!; evaluate.
Defined.

Section Trick.

Context `{PM : PlayerModule}.

Lemma game_passTurn s h w :
  game (passTurn s h w) =
    mkGame (players (game w)) (tablePoker (game w)) (tablePokerPic (game w))
      (lastShotPlayer (game w)) (whoseTurn (game (passTurn s h w))).
Proof. unfold passTurn. repeat case_decide; by destruct w as [[]]. Qed.

(** X14.  A play of cards by a known seat, when every card on the table
    has its sprite, is applied in full: the cards played are the cards
    on the table, in the order of [Poker.comparePoker], the seat is the
    last player, exactly these cards have a sprite (so the next play
    finds the sprites it destroys), the cards are removed one by one
    from the hand of the seat, which keeps its identity, and the other
    players are left alone. *)
Theorem play_sets_trick w packet s p :
  shot_pokers packet ≠ [] →
  uidToSeat_from 3 0 (shot_uid packet) (players (game w)) = Ok s →
  js_index (players (game w)) s = Some p →
  Forall (λ pid, pid ∈ tablePokerPic (game w)) (tablePoker (game w)) →
  ∃ w',
    run (handleShotPoker packet) w = (Ok (), w') ∧
    tablePoker (game w') = sortByComparePoker (shot_pokers packet) ∧
    tablePoker (game w') ≡ₚ shot_pokers packet ∧
    lastShotPlayer (game w') = Some (Z.to_nat s) ∧
    (∀ pid, pid ∈ tablePokerPic (game w') ↔ pid ∈ shot_pokers packet) ∧
    Forall (λ pid, pid ∈ tablePokerPic (game w')) (tablePoker (game w')) ∧
    players (game w') =
      <[Z.to_nat s :=
          with_hand (foldl (λ h pid, removeAPoker pid h) (pokerInHand p)
                       (sortByComparePoker (shot_pokers packet))) p]>
        (players (game w)).
Proof.
  intros Hne Hs Hp Hpic. eexists. split; [by apply run_handleShotPoker_play|].
  rewrite game_passTurn. cbn [game players tablePoker tablePokerPic lastShotPlayer].
  pose proof (sortByComparePoker_perm (shot_pokers packet)) as Hperm.
  split_and!; try done.
  - intros pid. rewrite elem_of_list_to_set. by rewrite Hperm.
  - apply Forall_forall. intros pid Hin. by apply elem_of_list_to_set.
Qed.

(** X16.  A turn notification that carries cards without a sprite
    leaves a table on which the next play of cards throws partway: the
    cards played have left the hand of the seat and [whoseTurn] is that
    seat, but the table still holds the cards of the notification, the
    sprites and the last player are as before, the turn is not passed,
    nothing is scheduled and the multiplier is not updated. *)
Theorem play_after_turn_notification_throws w u l t packet s p :
  uidToSeat_from 3 0 u (players (game w)) = Ok t →
  ¬ Forall (λ pid, pid ∈ tablePokerPic (game w)) l →
  shot_pokers packet ≠ [] →
  uidToSeat_from 3 0 (shot_uid packet) (players (game w)) = Ok s →
  js_index (players (game w)) s = Some p →
  let w1 := exec (onmessage (RSP_TURN_PLAYER u (Some l))) w in
  fst (run (onmessage (RSP_TURN_PLAYER u (Some l))) w) = Ok () ∧
  run (onmessage (RSP_SHOT_POKER packet)) w1 =
    (Throw,
     mkWorld
       (mkGame
          (<[Z.to_nat s :=
               with_hand (foldl (λ h pid, removeAPoker pid h) (pokerInHand p)
                            (sortByComparePoker (shot_pokers packet))) p]>
             (players (game w)))
          l (tablePokerPic (game w)) (lastShotPlayer (game w)) s)
       (observer w1) (log w1)).
Proof.
  intros Ht Hpic Hne Hs Hp w1. subst w1. unfold exec.
  rewrite (run_onmessage_turn w u (Some l) t Ht). cbn [fst snd default].
  split; [done|]. cbn [onmessage].
  erewrite run_bind_Throw; [|by apply run_handleShotPoker_no_sprite]. done.
Qed.

End Trick.

Section FreeLead.

Context `{PM : PlayerModule}.

Lemma passTurn_next s h w :
  h ≠ [] →
  passTurn s h w =
    mkWorld
      (mkGame (players (game w)) (tablePoker (game w)) (tablePokerPic (game w))
         (lastShotPlayer (game w)) (Z.rem (s + 1) 3))
      (observer w)
      (if decide (Z.rem (s + 1) 3 = 0) then (log w ++ [Timer 1000 CbStartPlay])%list
       else log w).
Proof.
  intros Hh. unfold passTurn. rewrite decide_True; [done|].
  destruct h; [done | cbn; lia].
Qed.

(** X15.  The free lead: after a play of the local seat that leaves it
    cards and a pass of each of the two other seats, both still holding
    cards, it is the turn of the local seat again, the cards it played
    are still on the table, and the prompt that the timer sets off a
    second later carries no card to beat. *)
Theorem free_lead_after_two_passes w play pass1 pass2 p0 p1 p2 :
  players (game w) = [p0; p1; p2] →
  shot_uid play = uid p0 →
  shot_uid pass1 = uid p1 → uid p1 ≠ uid p0 →
  shot_uid pass2 = uid p2 → uid p2 ≠ uid p0 → uid p2 ≠ uid p1 →
  shot_pokers play ≠ [] → shot_pokers pass1 = [] → shot_pokers pass2 = [] →
  Forall (λ pid, pid ∈ tablePokerPic (game w)) (tablePoker (game w)) →
  foldl (λ h pid, removeAPoker pid h) (pokerInHand p0)
    (sortByComparePoker (shot_pokers play)) ≠ [] →
  pokerInHand p1 ≠ [] → pokerInHand p2 ≠ [] →
  let w3 := exec (handleShotPoker pass2)
              (exec (handleShotPoker pass1) (exec (handleShotPoker play) w)) in
  whoseTurn (game w3) = 0 ∧
  tablePoker (game w3) = sortByComparePoker (shot_pokers play) ∧
  lastShotPlayer (game w3) = Some 0%nat ∧
  log w3 = (log w ++ [Timer 1000 CbStartPlay])%list ∧
  run (fire CbStartPlay) w3 =
    (Ok (), mkWorld (game w3) (observer w3) (log w3 ++ [PlayPoker []])).
Proof.
  intros Hps Hu0 Hu1 H10 Hu2 H20 H21 Hplay Hpass1 Hpass2 Hpic Hh0 Hh1 Hh2 w3.
  subst w3. unfold exec.
  rewrite (run_handleShotPoker_play w play 0 p0); try done; cycle 1.
  { rewrite Hps, Hu0. by apply uidToSeat_first. }
  { by rewrite Hps. }
  cbn [snd]. rewrite Hps.
  set (h0 := foldl _ _ _) in *.
  change (<[Z.to_nat 0 := with_hand h0 p0]> [p0; p1; p2])
    with [with_hand h0 p0; p1; p2].
  rewrite passTurn_next by done.
  cbn [game players tablePoker tablePokerPic lastShotPlayer whoseTurn observer log].
  change (Z.rem (0 + 1) 3) with 1. rewrite (decide_False (P := 1 = 0)) by done.
  set (w1 := mkWorld _ _ _).
  assert (run (handleShotPoker pass1) w1 =
          (Ok (), passTurn 1 (pokerInHand p1) (withWhoseTurn 1 w1))) as ->.
  { apply run_handleShotPoker_pass; [done| |done].
    cbn. rewrite decide_False by (by rewrite Hu1). by rewrite decide_True. }
  cbn [snd]. rewrite passTurn_next by done.
  cbn [withWhoseTurn withGame w1 game players tablePoker tablePokerPic lastShotPlayer
       whoseTurn observer log].
  change (Z.rem (1 + 1) 3) with 2. rewrite (decide_False (P := 2 = 0)) by done.
  set (w2 := mkWorld _ _ _).
  assert (run (handleShotPoker pass2) w2 =
          (Ok (), passTurn 2 (pokerInHand p2) (withWhoseTurn 2 w2))) as ->.
  { apply run_handleShotPoker_pass; [done| |done].
    cbn. rewrite !decide_False by (by rewrite Hu2). by rewrite decide_True. }
  cbn [snd]. rewrite passTurn_next by done.
  cbn [withWhoseTurn withGame w2 game players tablePoker tablePokerPic lastShotPlayer
       whoseTurn observer log].
  change (Z.rem (2 + 1) 3) with 0. rewrite (decide_True (P := 0 = 0)) by done.
  by split_and!.
Qed.

End FreeLead.

Section BidEdges.

Context `{PM : PlayerModule}.

(** X17.  A bid resolution that names a landlord but does not carry
    exactly three bottom cards gives the turn to the seat of the
    landlord (-1 when its uid is not at the table) and does nothing
    more: no landlord is flagged, the table and the hands are as before
    and no hand-over is scheduled; the bid buttons are hidden. *)
Theorem landlord_without_bottom_cards w packet b s :
  uidToSeat_from 3 0 (call_uid packet) (players (game w)) = Ok b →
  b ≠ -1 →
  call_landlord packet ≠ -1 →
  uidToSeat_from 3 0 (call_landlord packet) (players (game w)) = Ok s →
  (∀ c0 c1 c2, call_pokers packet ≠ Some [c0; c1; c2]) →
  let w' := exec (onmessage (RSP_CALL_SCORE packet)) w in
  game w' = mkGame (players (game w)) (tablePoker (game w)) (tablePokerPic (game w))
              (lastShotPlayer (game w)) s ∧
  Observer.get "rob" (observer w') = VBool false ∧
  ∃ l, log w' = (log w ++ l)%list ∧ Forall isNotify l.
Proof.
  intros Hb Hb1 Hl Hs Hpk w'. subst w'.
  assert (0 ≤ b ∧ ∃ q, players (game w) !! Z.to_nat b = Some q) as [Hb0 [q Hq]].
  { apply uidToSeat_Ok in Hb as [?|[? (q & ? & _)]]; [done|]. split; [lia | eauto]. }
  unfold exec. cbn [onmessage].
  rewrite run_bind, run_uidToSeat, Hb.
  rewrite run_bind, run_setWhoseTurn.
  erewrite (run_bind_Ok (getPlayer b));
    last (apply (run_getPlayer _ _ q); apply js_index_Some; split; [lia | exact Hq]).
  erewrite (run_bind_Ok (observerSet _ _)); last by apply run_observerSet_plain.
  cbn zeta. rewrite (decide_False (P:=call_landlord packet = -1)) by done.
  set (wa := mkWorld _ _ _).
  assert (run (landlord ← uidToSeat (call_landlord packet);
               setWhoseTurn landlord;;
               match call_pokers packet with
               | Some [c0; c1; c2] =>
                   g ← getGame;
                   setTablePoker
                     (js_assign 2 c2 (js_assign 1 c1 (js_assign 0 c0 (tablePoker g))));;
                   updPlayer landlord setLandlord;;
                   showLastThreePoker
               | _ => mret ()
               end) wa = (Ok (), withWhoseTurn s wa)) as Hmid.
  { rewrite run_bind, run_uidToSeat. subst wa.
    cbn [withWhoseTurn withGame game players]. rewrite Hs.
    rewrite run_bind, run_setWhoseTurn.
    destruct (call_pokers packet) as [[|c0 [|c1 [|c2 [|c3 t]]]]|]; try reflexivity.
    by destruct (Hpk c0 c1 c2). }
  rewrite (run_bind_Ok _ _ _ _ _ Hmid).
  destruct (observerSet_frame "room.multiple" (call_multiple packet) (withWhoseTurn s wa))
    as (Hg & (l & Hlog & Hl') & Hrob).
  unfold exec in *. split; [by rewrite Hg|]. split.
  - rewrite Hrob by done. unfold Observer.get. cbn. by rewrite lookup_insert_eq.
  - rewrite Hlog. subst wa. cbn [log withWhoseTurn withGame game observer].
    rewrite <- !app_assoc. eexists. split; [reflexivity|].
    repeat apply Forall_app_2; try done; apply Forall_fmap, Forall_forall; by intros [].
Qed.

End BidEdges.

Lemma landlord_without_bottom_cards_witness :
  let w' := exec (onmessage (RSP_CALL_SCORE (mkCallScore 1 1 3 (Some [52; 53]) (VNum 2)))) dealt in
  game w' = mkGame (players (game dealt)) (tablePoker (game dealt))
              (tablePokerPic (game dealt)) (lastShotPlayer (game dealt)) 2 ∧
  Observer.get "rob" (observer w') = VBool false ∧
  ∃ l, log w' = (log dealt ++ l)%list ∧ Forall isNotify l.
Proof.
  apply (@landlord_without_bottom_cards SpecPlayers dealt
           (mkCallScore 1 1 3 (Some [52; 53]) (VNum 2)) 0 2);
    [evaluate | done | done | evaluate |].
  intros c0 c1 c2. discriminate.
Defined.

Section JoinEdges.

Context `{PM : PlayerModule}.

(** The loop of the join response when the local player is found. *)
Lemma run_joinLoop_found syncInfo p0 p1 p2 : ∀ rest i j info0 w,
  players (game w) = [p0; p1; p2] →
  rest !! j = Some info0 →
  info_uid info0 = uid p0 →
  (∀ k info, (k < j)%nat → rest !! k = Some info → info_uid info ≠ uid p0) →
  run (joinLoop syncInfo i rest) w =
    match syncInfo !! ((i + j + 1) mod 3)%nat with
    | None => (Throw, w)
    | Some info1 =>
        let p1' := updateInfo (info_uid info1) (info_name info1) p1 in
        match syncInfo !! ((i + j + 2) mod 3)%nat with
        | None => (Throw, withPlayers [p0; p1'; p2] w)
        | Some info2 =>
            (Ok (), withPlayers
                      [p0; p1'; updateInfo (info_uid info2) (info_name info2) p2] w)
        end
    end.
Proof.
  induction rest as [|info rest IH]; intros i j info0 w E Hj Hu Hfirst;
    [by rewrite lookup_nil in Hj|].
  cbn [joinLoop].
  erewrite (run_bind_Ok (getPlayer 0)); last by (apply (run_getPlayer _ _ p0); rewrite E).
  destruct j as [|j].
  - injection Hj as ->. rewrite decide_True by done.
    rewrite Nat.add_0_r.
    erewrite (run_bind_Ok (getPlayer 1)); last by (apply (run_getPlayer _ _ p1); rewrite E).
    destruct (syncInfo !! ((i + 1) mod 3)%nat) as [info1|]; [|done].
    erewrite (run_bind_Ok (updPlayer 1 _));
      last by (apply (run_updPlayer _ _ _ p1); rewrite E).
    rewrite E.
    erewrite (run_bind_Ok (getPlayer 2)); last by apply (run_getPlayer _ _ p2).
    destruct (syncInfo !! ((i + 2) mod 3)%nat) as [info2|]; [|done].
    by erewrite (run_updPlayer _ _ _ p2).
  - rewrite decide_False by (by apply (Hfirst 0%nat); [lia|]).
    replace (i + S j + 1)%nat with (S i + j + 1)%nat by lia.
    replace (i + S j + 2)%nat with (S i + j + 2)%nat by lia.
    apply (IH (S i) j info0); try done.
    intros k info' Hk. apply (Hfirst (S k)). lia.
Qed.

(** The loop of the join response when the local player is not listed. *)
Lemma run_joinLoop_absent syncInfo p0 : ∀ rest i w,
  players (game w) !! 0%nat = Some p0 →
  Forall (λ info, info_uid info ≠ uid p0) rest →
  run (joinLoop syncInfo i rest) w = (Ok (), w).
Proof.
  induction rest as [|info rest IH]; intros i w E Hall; [done|].
  apply Forall_cons in Hall as [Hne Hall]. cbn [joinLoop].
  erewrite (run_bind_Ok (getPlayer 0)); last by apply (run_getPlayer _ _ p0).
  rewrite decide_False by done. by apply IH.
Qed.

(** What the join response does after the loop never throws and leaves
    the players, the turn, the last player and the observer alone. *)
Lemma run_join_tail (room : option Room) w :
  ∃ w',
    run (match room with
         | Some r =>
             match bottom_cards r with
             | Some cards =>
                 if decide (length cards = 3%nat) then
                   setTablePoker cards;;
                   if decide (landlord_uid r ≠ -1 ∧ room_state r >= 3)
                   then showLastThreePoker else mret ()
                 else mret ()
             | None => mret ()
             end
         | None => mret ()
         end) w = (Ok (), w') ∧
    players (game w') = players (game w) ∧
    whoseTurn (game w') = whoseTurn (game w) ∧
    lastShotPlayer (game w') = lastShotPlayer (game w) ∧
    observer w' = observer w.
Proof.
  destruct room as [r|]; [|by eexists].
  destruct (bottom_cards r) as [cards|]; [|by eexists].
  case_decide as Hl; [|by eexists].
  erewrite (run_bind_Ok (setTablePoker _)); last reflexivity.
  case_decide; [|by eexists].
  rewrite run_showLastThreePoker by done. by eexists.
Qed.

(** X18.  A join response that carries a room and does not list the
    local player assigns no seat: it returns, the three players, the
    turn and the last player are as before, and the room of the response
    is stored all the same. *)
Theorem join_without_local_player w r syncInfo p0 :
  players (game w) !! 0%nat = Some p0 →
  Forall (λ info, info_uid info ≠ uid p0) syncInfo →
  ∃ w',
    run (onmessage (RSP_JOIN_ROOM (Some r) syncInfo)) w = (Ok (), w') ∧
    players (game w') = players (game w) ∧
    whoseTurn (game w') = whoseTurn (game w) ∧
    lastShotPlayer (game w') = lastShotPlayer (game w) ∧
    Observer.get "room" (observer w') = VObj (room_props r).
Proof.
  intros E Hall. cbn [onmessage from_option].
  erewrite (run_bind_Ok (observerSet _ _)); last by apply run_observerSet_plain.
  cbn zeta. set (w1 := mkWorld _ _ _).
  erewrite (run_bind_Ok (joinLoop _ _ _)); last by apply (run_joinLoop_absent _ p0).
  destruct (run_join_tail (Some r) w1) as (w' & -> & Hp & Ht & Hl & Ho).
  exists w'. split; [done|]. rewrite Hp, Ht, Hl, Ho. split_and!; try done.
  unfold Observer.get. cbn. by rewrite lookup_insert_eq.
Qed.

(** X19.  A join response that carries a room and lists the local
    player at the index [i] but has no entry at the index (i+1) mod 3 or
    (i+2) mod 3 (a table of fewer than three) throws: in the first case
    no seat is assigned, in the second seat 1 has its identity and seat
    2 has not.  In both the room is stored, and the bottom cards of the
    room are not read: the table is as before and nothing is
    scheduled. *)
Theorem join_with_missing_neighbour w r syncInfo i info0 p0 p1 p2 :
  players (game w) = [p0; p1; p2] →
  syncInfo !! i = Some info0 →
  info_uid info0 = uid p0 →
  (∀ k info, (k < i)%nat → syncInfo !! k = Some info → info_uid info ≠ uid p0) →
  syncInfo !! ((i + 1) mod 3)%nat = None ∨ syncInfo !! ((i + 2) mod 3)%nat = None →
  let w' := exec (onmessage (RSP_JOIN_ROOM (Some r) syncInfo)) w in
  fst (run (onmessage (RSP_JOIN_ROOM (Some r) syncInfo)) w) = Throw ∧
  players (game w') =
    match syncInfo !! ((i + 1) mod 3)%nat with
    | None => [p0; p1; p2]
    | Some info1 => [p0; updateInfo (info_uid info1) (info_name info1) p1; p2]
    end ∧
  tablePoker (game w') = tablePoker (game w) ∧
  tablePokerPic (game w') = tablePokerPic (game w) ∧
  Observer.get "room" (observer w') = VObj (room_props r) ∧
  ∀ d cb, Timer d cb ∈ log w' → Timer d cb ∈ log w.
Proof.
  intros E Hi Hu Hfirst Hmiss w'. subst w'. unfold exec. cbn [onmessage from_option].
  erewrite (run_bind_Ok (observerSet _ _)); last by apply run_observerSet_plain.
  cbn zeta. set (w1 := mkWorld _ _ _).
  assert (∀ d cb, Timer d cb ∈ log w1 → Timer d cb ∈ log w) as Hlog.
  { intros d cb. unfold w1. cbn [log].
    intros [?|(c & [=] & _)%list_elem_of_fmap]%elem_of_app. done. }
  assert (Observer.get "room" (observer w1) = VObj (room_props r)) as Hroom.
  { unfold Observer.get. cbn. by rewrite lookup_insert_eq. }
  rewrite run_bind.
  rewrite (run_joinLoop_found syncInfo p0 p1 p2 syncInfo 0 i info0 w1) by done.
  cbn [Nat.add].
  destruct (syncInfo !! ((i + 1) mod 3)%nat) as [info1|].
  - destruct Hmiss as [? | ->]; [done|]. cbn zeta. cbn [fst snd].
    cbn [withPlayers withGame game players tablePoker tablePokerPic observer log].
    by split_and!.
  - cbn [fst snd]. by split_and!.
Qed.

(** X20.  A join response for a table of three whose room carries
    three bottom cards puts them on the table, and when the room has a
    landlord and its state is at least 3 it gives them sprites and
    schedules the hand-over.  The handler never sets [whoseTurn]: when
    the timer fires in a scene whose turn is 0, as it is when the scene
    was just created, the bottom cards go to the hand of the local seat
    and the local player is prompted, whoever the landlord of the room
    is. *)
Theorem join_resumes_bottom_cards w r syncInfo i info0 info1 info2 p0 p1 p2 c0 c1 c2 :
  players (game w) = [p0; p1; p2] →
  syncInfo !! i = Some info0 →
  info_uid info0 = uid p0 →
  (∀ k info, (k < i)%nat → syncInfo !! k = Some info → info_uid info ≠ uid p0) →
  syncInfo !! ((i + 1) mod 3)%nat = Some info1 →
  syncInfo !! ((i + 2) mod 3)%nat = Some info2 →
  bottom_cards r = Some [c0; c1; c2] →
  let w' := exec (onmessage (RSP_JOIN_ROOM (Some r) syncInfo)) w in
  fst (run (onmessage (RSP_JOIN_ROOM (Some r) syncInfo)) w) = Ok () ∧
  tablePoker (game w') = [c0; c1; c2] ∧
  whoseTurn (game w') = whoseTurn (game w) ∧
  (¬ (landlord_uid r ≠ -1 ∧ room_state r >= 3) →
     tablePokerPic (game w') = tablePokerPic (game w) ∧
     ∀ d cb, Timer d cb ∈ log w' → Timer d cb ∈ log w) ∧
  (landlord_uid r ≠ -1 ∧ room_state r >= 3 →
     tablePokerPic (game w') =
       (tablePokerPic (game w) ∖ {[55]}) ∪ list_to_set [c0; c1; c2] ∧
     last (log w') = Some (Timer 1500 CbDealLastThreePoker) ∧
     (whoseTurn (game w) = 0 →
      ∃ w2 h,
        run (fire CbDealLastThreePoker) w' = (Ok (), w2) ∧
        hand 0 (game w2) = h ∧
        h ≡ₚ (pokerInHand p0 ++ [Some c0; Some c1; Some c2])%list ∧
        tablePoker (game w2) = [] ∧
        log w2 = (log w' ++ [PlayPoker []])%list)).
Proof.
  intros E Hi Hu Hfirst H1 H2 Hcards w'. subst w'. unfold exec. cbn [onmessage from_option].
  erewrite (run_bind_Ok (observerSet _ _)); last by apply run_observerSet_plain.
  cbn zeta. set (w1 := mkWorld _ _ _).
  erewrite (run_bind_Ok (joinLoop _ _ _));
    last by apply (run_joinLoop syncInfo p0 p1 p2 info1 info2 syncInfo 0 i info0).
  rewrite Hcards, decide_True by done.
  erewrite (run_bind_Ok (setTablePoker _)); last reflexivity.
  cbn [withPlayers withGame w1 game players tablePoker tablePokerPic lastShotPlayer
       whoseTurn observer log].
  destruct (decide (landlord_uid r ≠ -1 ∧ room_state r >= 3)) as [Hld|Hld].
  - rewrite run_showLastThreePoker by done.
    cbn [fst snd game players tablePoker tablePokerPic lastShotPlayer whoseTurn
         observer log].
    split; [done|]. split; [done|]. split; [done|]. split; [done|].
    intros _. split; [done|]. split; [by rewrite last_snoc|].
    intros Hz. set (w' := mkWorld _ _ _).
    pose proof (run_dealLastThreePoker_hand w' 0 p0 c0 c1 c2) as Hrun.
    cbv zeta in Hrun. rewrite decide_True in Hrun by (by left).
    rewrite (decide_True (P := 0 = 0)) in Hrun by done.
    eexists _, _. split; [apply Hrun; done|]. cbn.
    split; [done|]. split; [apply sortPoker_perm | done].
  - cbn [fst snd game players tablePoker tablePokerPic lastShotPlayer whoseTurn
         observer log].
    split; [done|]. split; [done|]. split; [done|]. split; [|done].
    intros _. split; [done|].
    intros d cb. intros [?|(c & [=] & _)%list_elem_of_fmap]%elem_of_app. done.
Qed.

End JoinEdges.

Lemma fire_answer pi c s call n :
  Socket.fire pi c s = Ok call →
  match c with
  | Socket.OpenCb => False
  | Socket.LoginCb _ => n = Protocol.CLI_LOGIN
  | Socket.ListTableCb => n = Protocol.CLI_LIST_TABLE
  | Socket.JoinTableCb _ => n = Protocol.CLI_JOIN_TABLE
  | Socket.DealPokerCb => n = Protocol.CLI_DEAL_POKER
  | Socket.CallScoreCb _ => n = Protocol.CLI_CALL_SCORE
  end →
  ∃ h p, call = Socket.Message h (n + 1) p ∧ Socket.messageHandler s = Some h.
Proof.
  unfold Socket.fire, Socket.deliver.
  destruct c; intros Hrun Hn; try done; subst n;
    repeat match type of Hrun with
           | context [field ?k ?v] => destruct (field k v); [|done]
           end;
    destruct (Socket.messageHandler s) as [h|]; try done;
    injection Hrun as <-; by eexists _, _.
Qed.

(** X21.  The simulated server: a request is answered by at most one
    message, set off 200 ms later, and only when a message handler is
    connected and the type of the request is one of login, list of
    tables, join, deal and bid; a play, like any other type, gets no
    answer.  When the timeout runs, the answer goes to the message
    handler connected at that time and its code is the code of the
    request plus one; it does run to that call when a handler is
    connected and the data of the request and [window.playerInfo] are
    objects. *)
Theorem simulation_answers type data s :
  let l := Socket.send type data s in
  (length l ≤ 1)%nat ∧
  (l ≠ [] ↔
   Socket.messageHandler s ≠ None ∧ ∃ n, type = VNum n ∧ n ∈ answered_types) ∧
  ∀ d c, (d, c) ∈ l →
    d = 200 ∧
    ∃ n, type = VNum n ∧
      (∀ pi s' call, Socket.fire pi c s' = Ok call →
         ∃ h p, call = Socket.Message h (n + 1) p ∧ Socket.messageHandler s' = Some h) ∧
      (∀ props piprops s' h, data = VObj props → Socket.messageHandler s' = Some h →
         ∃ p, Socket.fire (VObj piprops) c s' = Ok (Socket.Message h (n + 1) p)).
Proof.
  unfold Socket.send, Socket.simulateResponse, answered_types.
  destruct (Socket.messageHandler s) as [h0|].
  2:{ cbn. split_and!; [lia | | by intros ?? ?%elem_of_nil]. split; [done | by intros []]. }
  destruct type as [| |b|n|str|props0];
    try (cbn; split_and!; [lia | | by intros ?? ?%elem_of_nil]; split; [done|];
         by intros [_ (n & [=] & _)]).
  cbv zeta.
  repeat case_decide; subst; cbn [length].
  all: split; [lia|]; split.
  all: try (split; [intros _; split; [done|]; eexists; split; [done|]; set_solver | done]).
  all: try (split; [done|]; intros [_ (m & [= <-] & Hin)];
            repeat (apply elem_of_cons in Hin as [?|Hin]; [done|]);
            by apply elem_of_nil in Hin).
  all: try by intros ?? ?%elem_of_nil.
  all: intros d c [= -> ->]%list_elem_of_singleton; split; [done|]; eexists; split; [done|].
  all: split; [intros pi s' call Hrun; by eapply fire_answer|].
  all: intros props piprops s' h -> Hh; unfold Socket.fire, Socket.deliver; cbn;
       rewrite Hh; by eexists.
Qed.

Section Buttons.

Context `{PM : PlayerModule}.

(** X22.  The buttons of the scene follow the messages through the
    observer.  In a scene created on an empty game and a new observer,
    the ready response of the local player makes exactly one call, of
    the subscriber of the ready button with [true]; the deal of the local
    player makes exactly one call, of the subscriber of the bid buttons
    with [true]; and the title bar is called by neither. *)
Theorem create_wires_buttons w0 playerInfo pokers :
  players (game w0) = [] →
  observer w0 = Observer.new →
  let w := exec (create playerInfo) w0 in
  run (create playerInfo) w0 = (Ok (), w) ∧
  log w = log w0 ∧
  (∃ w', run (onmessage (RSP_READY (local_uid playerInfo))) w = (Ok (), w') ∧
         log w' = (log w0 ++ [Notify 1 (VBool true)])%list) ∧
  (∃ w', run (onmessage (RSP_DEAL_POKER (local_uid playerInfo) pokers)) w = (Ok (), w') ∧
         log w' = (log w0 ++ [Notify 2 (VBool true)])%list).
Proof.
  intros E Ho w.
  assert (run (create playerInfo) w0 =
          (Ok (), mkWorld
             (mkGame
                [updateInfo (local_uid playerInfo) (local_name playerInfo) (createPlay 0);
                 createPlay 1; createPlay 2]
                (tablePoker (game w0)) (tablePokerPic (game w0))
                (lastShotPlayer (game w0)) (whoseTurn (game w0)))
             (Observer.subscribe "rob" (Some 2%nat)
                (Observer.subscribe "ready" (Some 1%nat)
                   (Observer.subscribe "room" (Some 0%nat) Observer.new)))
             (log w0))) as Hcreate.
  { unfold create, run. rewrite E, Ho. reflexivity. }
  subst w. unfold exec. rewrite Hcreate. cbn [snd].
  set (w := mkWorld _ _ _).
  split; [done|]. split; [done|]. split.
  - eexists. cbn [onmessage].
    erewrite run_bind_Ok; last by (apply run_getPlayer; reflexivity).
    rewrite decide_True by done.
    rewrite run_observerSet_plain by done. split; [reflexivity|]. reflexivity.
  - eexists. cbn [onmessage].
    erewrite run_bind_Ok; last by (apply run_getPlayer; reflexivity).
    rewrite decide_True by done.
    erewrite run_bind_Ok; last by (apply run_dealPoker; reflexivity).
    rewrite run_bind. unfold uidToSeat at 1. cbn [run withGame game players].
    rewrite uidToSeat_first by done.
    rewrite run_bind. unfold setWhoseTurn at 1. rewrite run_bind.
    cbn [run getGame putGame game players tablePoker tablePokerPic lastShotPlayer observer log].
    unfold startCallScore. rewrite run_bind. cbn [run getGame game whoseTurn].
    rewrite decide_True by done.
    rewrite run_observerSet_plain by done. split; [reflexivity|]. reflexivity.
Qed.

End Buttons.

(** After the lead of the landlord it is the turn of the local seat:
    the prompt carries the pair on the table. *)
Lemma startPlay_prompts_witness :
  ∃ w', run startPlay led = (Ok (), w') ∧
        log w' = (log led ++ [PlayPoker [53; 52]])%list.
Proof.
  assert (0 ≤ whoseTurn (game led) < Z.of_nat (length (players (game led)))) as Hr
    by (vm_compute; split; [discriminate | reflexivity]).
  destruct (startPlay_prompts led) as (w' & Hrun & _ & _ & Hin & _).
  exists w'. split; [exact Hrun|]. rewrite (Hin Hr). evaluate.
Defined.

(** The table of three ignores the ready and the deal of the player 2;
    the scene without players throws. *)
Lemma messages_for_others_ignored_witness :
  (run (onmessage (RSP_READY 2)) joined = (Ok (), joined) ∧
   run (onmessage (RSP_DEAL_POKER 2 [1; 2; 3])) joined = (Ok (), joined)) ∧
  (run (onmessage (RSP_READY 2)) world0 = (Throw, world0) ∧
   run (onmessage (RSP_DEAL_POKER 2 [1; 2; 3])) world0 = (Throw, world0)).
Proof.
  split.
  - apply (proj1 (@messages_for_others_ignored SpecPlayers joined 2 [1; 2; 3])
             (mkPlayer 1 "local" [] false)); [evaluate | done].
  - apply (proj2 (@messages_for_others_ignored SpecPlayers world0 2 [1; 2; 3])).
    evaluate.
Defined.

(** The turn of the local player is notified with the pair to beat. *)
Lemma turn_notification_witness :
  fst (run (onmessage (RSP_TURN_PLAYER 1 (Some [53; 52]))) led) = Ok () ∧
  log (exec (onmessage (RSP_TURN_PLAYER 1 (Some [53; 52]))) led) =
    (log led ++ [PlayPoker [53; 52]])%list.
Proof.
  destruct (@turn_notification SpecPlayers led 1 (Some [53; 52])) as (s & Hs & Hrun);
    [evaluate|].
  vm_compute in Hs. injection Hs as <-.
  unfold exec. rewrite Hrun. split; [reflexivity | evaluate].
Defined.

(** The player 9 is not at the table. *)
Lemma unknown_uid_throws_witness :
  run (onmessage (RSP_CALL_SCORE (mkCallScore 9 1 (-1) None (VNum 1)))) dealt =
    (Throw, withWhoseTurn (-1) dealt) ∧
  run (onmessage (RSP_SHOT_POKER (mkShot 9 [3] (VNum 2)))) playing =
    (Throw, withWhoseTurn (-1) playing).
Proof.
  split.
  - apply (proj1 (@unknown_uid_throws SpecPlayers dealt
                    (mkCallScore 9 1 (-1) None (VNum 1)) (mkShot 9 [3] (VNum 2)))).
    evaluate.
  - apply (proj2 (@unknown_uid_throws SpecPlayers playing
                    (mkCallScore 9 1 (-1) None (VNum 1)) (mkShot 9 [3] (VNum 2)))).
    evaluate.
Defined.

(** The lead of the landlord, seat 2, on the empty table. *)
Lemma play_sets_trick_witness :
  ∃ w', run (handleShotPoker (mkShot 3 [53; 52] (VNum 2))) playing = (Ok (), w') ∧
        tablePoker (game w') = [53; 52] ∧
        lastShotPlayer (game w') = Some 2%nat.
Proof.
  edestruct (@play_sets_trick SpecPlayers playing (mkShot 3 [53; 52] (VNum 2)) 2)
    as (w' & Hrun & Ht & _ & Hl & _).
  - done.
  - evaluate.
  - evaluate.
  - vm_compute. constructor.
  - exists w'. split; [exact Hrun|]. split; [exact Ht | exact Hl].
Defined.

Lemma free_lead_after_two_passes_witness :
  let w3 := exec (handleShotPoker (mkShot 3 [] (VNum 2)))
              (exec (handleShotPoker (mkShot 2 [] (VNum 2)))
                 (exec (handleShotPoker (mkShot 1 [17] (VNum 2))) localLead)) in
  whoseTurn (game w3) = 0 ∧
  tablePoker (game w3) = [17] ∧
  run (fire CbStartPlay) w3 =
    (Ok (), mkWorld (game w3) (observer w3) (log w3 ++ [PlayPoker []])).
Proof.
  edestruct (@free_lead_after_two_passes SpecPlayers localLead
               (mkShot 1 [17] (VNum 2)) (mkShot 2 [] (VNum 2)) (mkShot 3 [] (VNum 2)))
    as (Ht & Htable & _ & _ & Hfire).
  - evaluate.
  - reflexivity.
  - reflexivity.
  - done.
  - reflexivity.
  - done.
  - done.
  - done.
  - reflexivity.
  - reflexivity.
  - vm_compute. constructor.
  - by vm_compute.
  - by vm_compute.
  - by vm_compute.
  - split; [exact Ht|]. split; [exact Htable | exact Hfire].
Defined.

(** The turn of seat 1 is notified with the cards 20, 21, which have no
    sprite; the play of seat 1 then throws. *)
Lemma play_after_turn_notification_throws_witness :
  let w1 := exec (onmessage (RSP_TURN_PLAYER 2 (Some [20; 21]))) led in
  fst (run (onmessage (RSP_TURN_PLAYER 2 (Some [20; 21]))) led) = Ok () ∧
  fst (run (onmessage (RSP_SHOT_POKER (mkShot 2 [30; 31] (VNum 2)))) w1) = Throw ∧
  tablePoker (game (exec (onmessage (RSP_SHOT_POKER (mkShot 2 [30; 31] (VNum 2)))) w1)) =
    [20; 21].
Proof.
  edestruct (@play_after_turn_notification_throws SpecPlayers led 2 [20; 21] 1
               (mkShot 2 [30; 31] (VNum 2)) 1) as [Hturn Hrun].
  - evaluate.
  - vm_compute. intros H. inversion H as [|?? Hin _]. set_solver.
  - done.
  - evaluate.
  - evaluate.
  - cbv zeta. unfold exec at 2. rewrite Hrun. split; [exact Hturn|]. split; reflexivity.
Defined.

(** A join response that lists the players 2 and 3 only. *)
Lemma join_without_local_player_witness :
  ∃ w',
    run (onmessage (RSP_JOIN_ROOM (Some simulatedRoom) [mkInfo 2 "cpu1"; mkInfo 3 "cpu2"]))
      (exec (create (mkLocal 1 "local")) world0) = (Ok (), w') ∧
    players (game w') = players (game (exec (create (mkLocal 1 "local")) world0)).
Proof.
  edestruct (@join_without_local_player SpecPlayers
               (exec (create (mkLocal 1 "local")) world0) simulatedRoom
               [mkInfo 2 "cpu1"; mkInfo 3 "cpu2"])
    as (w' & Hrun & Hps & _).
  - evaluate.
  - repeat constructor; by vm_compute.
  - exists w'. split; [exact Hrun | exact Hps].
Defined.

(** A table of two: the local player and the player 2. *)
Lemma join_with_missing_neighbour_witness :
  let w := exec (create (mkLocal 1 "local")) world0 in
  let m := RSP_JOIN_ROOM (Some simulatedRoom) [mkInfo 1 "local"; mkInfo 2 "cpu1"] in
  fst (run (onmessage m) w) = Throw ∧
  players (game (exec (onmessage m) w)) =
    [mkPlayer 1 "local" [] false; mkPlayer 2 "cpu1" [] false; mkPlayer 2 "" [] false].
Proof.
  edestruct (@join_with_missing_neighbour SpecPlayers
               (exec (create (mkLocal 1 "local")) world0) simulatedRoom
               [mkInfo 1 "local"; mkInfo 2 "cpu1"] 0 (mkInfo 1 "local"))
    as (Hthrow & Hps & _).
  - evaluate.
  - reflexivity.
  - reflexivity.
  - intros k info Hk. lia.
  - by right.
  - split; [exact Hthrow | exact Hps].
Defined.

(** The room of a table whose landlord is the player 3, joined again
    with the bottom cards 52, 53 and 54: the scene just created hands
    them to the local seat. *)
Lemma join_resumes_bottom_cards_witness :
  let w := exec (create (mkLocal 1 "local")) world0 in
  let r := mkRoom (room_props simulatedRoom) (Some [52; 53; 54]) 3 3 in
  let w' := exec (onmessage (RSP_JOIN_ROOM (Some r) simulatedPlayers)) w in
  tablePoker (game w') = [52; 53; 54] ∧
  ∃ w2,
    run (fire CbDealLastThreePoker) w' = (Ok (), w2) ∧
    hand 0 (game w2) ≡ₚ [Some 52; Some 53; Some 54] ∧
    log w2 = (log w' ++ [PlayPoker []])%list.
Proof.
  edestruct (@join_resumes_bottom_cards SpecPlayers
               (exec (create (mkLocal 1 "local")) world0)
               (mkRoom (room_props simulatedRoom) (Some [52; 53; 54]) 3 3)
               simulatedPlayers 0 (mkInfo 1 "local") (mkInfo 2 "cpu1") (mkInfo 3 "cpu2"))
    as (_ & Htable & _ & _ & Hresume).
  - evaluate.
  - reflexivity.
  - reflexivity.
  - intros k info Hk. lia.
  - reflexivity.
  - reflexivity.
  - reflexivity.
  - destruct Hresume as (_ & _ & Hfire); [by vm_compute|].
    destruct Hfire as (w2 & h & Hrun & Hh & Hperm & _ & Hlog); [reflexivity|].
    cbv zeta. split; [exact Htable|]. exists w2. split; [exact Hrun|].
    split; [by rewrite Hh | exact Hlog].
Defined.

(** The request to join the table 7 and a play, sent to a socket
    connected with the message handler 1. *)
Lemma simulation_answers_witness :
  let s := (Socket.connect (Some 0%nat) (Some 1%nat) None Socket.new).1 in
  let data := VObj {["table_id" := VNum 7]} in
  Socket.send (VNum Protocol.CLI_JOIN_TABLE) data s = [(200, Socket.JoinTableCb data)] ∧
  (∃ p, Socket.fire (VObj {["name" := VStr "local"]}) (Socket.JoinTableCb data) s =
          Ok (Socket.Message 1 Protocol.SER_JOIN_TABLE p)) ∧
  Socket.send (VNum Protocol.CLI_SHOT_POKER) data s = [].
Proof.
  cbv zeta.
  destruct (simulation_answers (VNum Protocol.CLI_JOIN_TABLE)
              (VObj {["table_id" := VNum 7]})
              (Socket.connect (Some 0%nat) (Some 1%nat) None Socket.new).1)
    as (_ & _ & Hans).
  destruct (Hans 200 (Socket.JoinTableCb (VObj {["table_id" := VNum 7]})))
    as (_ & n & Hn & _ & Hruns); [by apply list_elem_of_singleton|].
  injection Hn as <-.
  split; [reflexivity|]. split; [|reflexivity].
  apply (Hruns {["table_id" := VNum 7]} {["name" := VStr "local"]}); reflexivity.
Defined.

(** The scene of the local player 1. *)
Lemma create_wires_buttons_witness :
  let w := exec (create (mkLocal 1 "local")) world0 in
  (∃ w', run (onmessage (RSP_READY 1)) w = (Ok (), w') ∧
         log w' = [Notify 1 (VBool true)]) ∧
  (∃ w', run (onmessage (RSP_DEAL_POKER 1 (seqZ 1 17))) w = (Ok (), w') ∧
         log w' = [Notify 2 (VBool true)]).
Proof.
  destruct (@create_wires_buttons SpecPlayers world0 (mkLocal 1 "local") (seqZ 1 17))
    as (_ & _ & Hready & Hdeal); [reflexivity | reflexivity |].
  split; [exact Hready | exact Hdeal].
Defined.
